(** * slackclient/server.py: the [Server] object

    A shallow embedding of [slackclient.server.Server]: the RTM handshake
    ([rtm_connect]), the parsing of the login snapshot into the channel list
    and the user dictionary, and the websocket send and receive paths.

    Python values decoded from JSON are the type [pyval].  The methods of
    [Server] are state transformers over the fields of the object and over
    the collaborators it talks to (the API requester, the websocket
    library); an exception is an outcome of the transformer, and so is a
    call that never returns. *)

From Stdlib Require Import Ascii String.
From stdpp Require Import gmap strings list.

Local Open Scope string_scope.
Local Open Scope Z_scope.

(** ** Python values *)

(** What [reply.json()] produces, and what the fields of [Server], [User]
    and [Channel] hold.  Numbers are the integers; a JSON object is the list
    of its entries in insertion order, with string keys. *)
#[local] Set Warnings "-register-all".
Inductive pyval : Type :=
| PNone
| PBool (b : bool)
| PInt (n : Z)
| PStr (s : string)
| PList (items : list pyval)
| PDict (entries : list (string * pyval)).

(** [bool(v)], as tested by [if v:]. *)
Definition truthy (v : pyval) : bool :=
  match v with
  | PNone => false
  | PBool b => b
  | PInt n => negb (n =? 0)
  | PStr s => negb (String.eqb s "")
  | PList l => match l with [] => false | _ => true end
  | PDict d => match d with [] => false | _ => true end
  end.

(** [v is None] *)
Definition is_none (v : pyval) : bool :=
  match v with PNone => true | _ => false end.

(** Equality of two decoded values, which is what [a == b] is on the strings
    that identifiers and names are; see [pyval_eqb_eq]. *)
Fixpoint pyval_eqb (a b : pyval) {struct a} : bool :=
  match a, b with
  | PNone, PNone => true
  | PBool x, PBool y => Bool.eqb x y
  | PInt x, PInt y => (x =? y)
  | PStr x, PStr y => String.eqb x y
  | PList l, PList m =>
      (fix items (l m : list pyval) {struct l} : bool :=
         match l, m with
         | [], [] => true
         | x :: l', y :: m' => pyval_eqb x y && items l' m'
         | _, _ => false
         end) l m
  | PDict d, PDict e =>
      (fix entries (d e : list (string * pyval)) {struct d} : bool :=
         match d, e with
         | [], [] => true
         | (k, x) :: d', (k', y) :: e' =>
             String.eqb k k' && pyval_eqb x y && entries d' e'
         | _, _ => false
         end) d e
  | _, _ => false
  end.

(** *** Dictionaries with string keys *)

Definition dict := list (string * pyval).

(** [d.get(k)] *)
Fixpoint dict_get (k : string) (d : dict) : option pyval :=
  match d with
  | [] => None
  | (k', v) :: d' => if String.eqb k k' then Some v else dict_get k d'
  end.

(** [k in d] *)
Definition dict_mem (k : string) (d : dict) : bool :=
  match dict_get k d with Some _ => true | None => false end.

(** [d[k] = v]: an existing key keeps its place, a new key goes last. *)
Fixpoint dict_set (k : string) (v : pyval) (d : dict) : dict :=
  match d with
  | [] => [(k, v)]
  | (k', v') :: d' =>
      if String.eqb k k' then (k, v) :: d' else (k', v') :: dict_set k v d'
  end.

(** *** Hashable values, the keys of a [dict] keyed by arbitrary values *)

(** [True] and [1] hash and compare alike, and so do [False] and [0]. *)
Inductive pykey : Type :=
| KNone
| KInt (n : Z)
| KStr (s : string).

Global Instance pykey_eq_dec : EqDecision pykey.
Proof. solve_decision. Defined.

Global Instance pykey_countable : Countable pykey.
Proof.
  refine (inj_countable'
            (λ k, match k with
                  | KNone => inl ()
                  | KInt n => inr (inl n)
                  | KStr s => inr (inr s)
                  end)
            (λ x, match x with
                  | inl _ => KNone
                  | inr (inl n) => KInt n
                  | inr (inr s) => KStr s
                  end) _).
  by intros [].
Defined.

(** The key a value is stored under; a list or a dict is unhashable. *)
Definition as_key (v : pyval) : option pykey :=
  match v with
  | PNone => Some KNone
  | PBool b => Some (KInt (if b then 1 else 0))
  | PInt n => Some (KInt n)
  | PStr s => Some (KStr s)
  | PList _ | PDict _ => None
  end.

(** ** Exceptions and outcomes *)

Inductive exn : Type :=
| SlackConnectionError (args : option string)
| SlackLoginError
| KeyError (key : string)
| TypeError
| AttributeError
| ValueError
| InvalidStateError
| SSLError (errno : option Z)
| CollaboratorError (msg : string).

(** How a call ends: with a value, with an exception, or never (it waits
    for an answer that does not come). *)
Inductive outcome (A : Type) : Type :=
| Ret (a : A)
| Raise (e : exn)
| Hang.
Arguments Ret {A} a.
Arguments Raise {A} e.
Arguments Hang {A}.

(** A computation over a state [σ]; the state is kept whatever the outcome,
    since an exception does not undo the assignments made before it. *)
Definition St (σ A : Type) : Type := σ → outcome A * σ.

Definition st_ret {σ A} (a : A) : St σ A := λ s, (Ret a, s).

Definition st_bind {σ A B} (m : St σ A) (k : A → St σ B) : St σ B :=
  λ s, match m s with
       | (Ret a, s') => k a s'
       | (Raise e, s') => (Raise e, s')
       | (Hang, s') => (Hang, s')
       end.

Definition raise {σ A} (e : exn) : St σ A := λ s, (Raise e, s).

(** [try: body / except: handler], the bare [except] that catches all. *)
Definition try_except {σ A} (body : St σ A) (handler : St σ A) : St σ A :=
  λ s, match body s with
       | (Raise _, s') => handler s'
       | r => r
       end.

Global Instance St_ret {σ} : MRet (St σ) := λ A, @st_ret σ A.
Global Instance St_bind {σ} : MBind (St σ) := λ A B k m, @st_bind σ A B m k.

(** Reading and writing the state. *)
Definition gets {σ A} (f : σ → A) : St σ A := λ s, (Ret (f s), s).
Definition modify {σ} (f : σ → σ) : St σ unit := λ s, (Ret (), f s).

(** ** The objects *)

(** [User(server, name, user_id, real_name, tz)] and
    [Channel(server, name, channel_id, members)] keep their arguments; the
    reference back to the server is left out. *)
Module User.
Record t : Type := Build { name : pyval; id : pyval; real_name : pyval; tz : pyval }.
End User.

Module Channel.
Record t : Type := Build { name : pyval; id : pyval; members : pyval }.
End Channel.

(** The fields of [Server].  [websocket] is [None] or the number of the
    connection it holds; [proxies] is [None] or a dict from scheme to URL. *)
Record Server : Type := {
  token : string;
  username : pyval;
  domain : pyval;
  login_data : pyval;
  websocket : option nat;
  users : gmap pykey User.t;
  channels : list Channel.t;
  connected : bool;
  ws_url : pyval;
  proxies : option (gmap string string)
}.

Definition set_username (v : pyval) (s : Server) : Server :=
  {| token := token s; username := v; domain := domain s;
     login_data := login_data s; websocket := websocket s; users := users s;
     channels := channels s; connected := connected s; ws_url := ws_url s;
     proxies := proxies s |}.

Definition set_domain (v : pyval) (s : Server) : Server :=
  {| token := token s; username := username s; domain := v;
     login_data := login_data s; websocket := websocket s; users := users s;
     channels := channels s; connected := connected s; ws_url := ws_url s;
     proxies := proxies s |}.

Definition set_login_data (v : pyval) (s : Server) : Server :=
  {| token := token s; username := username s; domain := domain s;
     login_data := v; websocket := websocket s; users := users s;
     channels := channels s; connected := connected s; ws_url := ws_url s;
     proxies := proxies s |}.

Definition set_websocket (v : option nat) (s : Server) : Server :=
  {| token := token s; username := username s; domain := domain s;
     login_data := login_data s; websocket := v; users := users s;
     channels := channels s; connected := connected s; ws_url := ws_url s;
     proxies := proxies s |}.

Definition set_users (v : gmap pykey User.t) (s : Server) : Server :=
  {| token := token s; username := username s; domain := domain s;
     login_data := login_data s; websocket := websocket s; users := v;
     channels := channels s; connected := connected s; ws_url := ws_url s;
     proxies := proxies s |}.

Definition set_channels (v : list Channel.t) (s : Server) : Server :=
  {| token := token s; username := username s; domain := domain s;
     login_data := login_data s; websocket := websocket s; users := users s;
     channels := v; connected := connected s; ws_url := ws_url s;
     proxies := proxies s |}.

Definition set_ws_url (v : pyval) (s : Server) : Server :=
  {| token := token s; username := username s; domain := domain s;
     login_data := login_data s; websocket := websocket s; users := users s;
     channels := channels s; connected := connected s; ws_url := v;
     proxies := proxies s |}.

(** ** The collaborators *)

(** What [api_requester.do] returns: [json] is [None] when the body does not
    decode, in which case [reply.json()] raises. *)
Record Reply : Type := {
  status_code : Z;
  json : option pyval;
  text : string
}.

(** The result of [parse_url]. *)
Record Url : Type := { host : option string; port : option Z; auth : option string }.

(** The calls made to the collaborators, in the order they are made. *)
Inductive Event : Type :=
| ApiCall (token : string) (request : string) (post_data : pyval) (timeout : pyval)
| WsConnect (url : pyval) (extra_headers : dict)
| WsSend (ws : nat) (data : string)
| WsRecv (ws : nat).

(** The world outside the object.  Each list scripts the answers to the
    successive calls of one kind, an exception being the answer [inr]; when
    a script is exhausted the call waits forever.  [json_dumps] and
    [parse_url] are the library functions of those names; [ws_opened] counts
    the connections opened, and [trace] records every call. *)
Record World : Type := {
  api_replies : list (Reply + exn);
  ws_connects : list (unit + string);
  ws_sends : list (unit + exn);
  ws_recvs : list (string + exn);
  json_dumps : pyval → string + exn;
  parse_url : string → Url + exn;
  ws_opened : nat;
  trace : list Event
}.

Definition log (e : Event) (w : World) : World :=
  {| api_replies := api_replies w; ws_connects := ws_connects w;
     ws_sends := ws_sends w; ws_recvs := ws_recvs w;
     json_dumps := json_dumps w; parse_url := parse_url w;
     ws_opened := ws_opened w; trace := trace w ++ [e] |}.

Definition set_api_replies (l : list (Reply + exn)) (w : World) : World :=
  {| api_replies := l; ws_connects := ws_connects w;
     ws_sends := ws_sends w; ws_recvs := ws_recvs w;
     json_dumps := json_dumps w; parse_url := parse_url w;
     ws_opened := ws_opened w; trace := trace w |}.

Definition set_ws_connects (l : list (unit + string)) (w : World) : World :=
  {| api_replies := api_replies w; ws_connects := l;
     ws_sends := ws_sends w; ws_recvs := ws_recvs w;
     json_dumps := json_dumps w; parse_url := parse_url w;
     ws_opened := ws_opened w; trace := trace w |}.

Definition set_ws_sends (l : list (unit + exn)) (w : World) : World :=
  {| api_replies := api_replies w; ws_connects := ws_connects w;
     ws_sends := l; ws_recvs := ws_recvs w;
     json_dumps := json_dumps w; parse_url := parse_url w;
     ws_opened := ws_opened w; trace := trace w |}.

Definition set_ws_recvs (l : list (string + exn)) (w : World) : World :=
  {| api_replies := api_replies w; ws_connects := ws_connects w;
     ws_sends := ws_sends w; ws_recvs := l;
     json_dumps := json_dumps w; parse_url := parse_url w;
     ws_opened := ws_opened w; trace := trace w |}.

Definition set_ws_opened (n : nat) (w : World) : World :=
  {| api_replies := api_replies w; ws_connects := ws_connects w;
     ws_sends := ws_sends w; ws_recvs := ws_recvs w;
     json_dumps := json_dumps w; parse_url := parse_url w;
     ws_opened := n; trace := trace w |}.

(** A method of [Server] runs over the object and the world. *)
Definition M (A : Type) : Type := St (Server * World) A.

Definition self {A} (f : Server → A) : M A := gets (λ σ, f σ.1).
Definition assign (f : Server → Server) : M unit := modify (λ σ, (f σ.1, σ.2)).

(** The next answer of a script. *)
Definition answer {A} (script : list (A + exn)) (rest : list (A + exn) → World → World)
    (s : Server) (w : World) : outcome A * (Server * World) :=
  match script with
  | [] => (Hang, (s, w))
  | inl a :: script' => (Ret a, (s, rest script' w))
  | inr e :: script' => (Raise e, (s, rest script' w))
  end.

(** [self.api_requester.do(token, request, post_data, timeout=timeout)] *)
Definition api_requester_do (tok request : string) (post_data timeout : pyval) : M Reply :=
  λ σ, let w := log (ApiCall tok request post_data timeout) σ.2 in
       answer (api_replies w) set_api_replies σ.1 w.

(** [reply.json()] *)
Definition reply_json (reply : Reply) : M pyval :=
  match json reply with
  | Some v => mret v
  | None => raise ValueError
  end.

(** [wsclient.connect(url, extra_headers=...)]: the new connection, or the
    text [str(e)] of the exception [e] it raises. *)
Definition wsclient_connect (url : pyval) (extra_headers : dict) : M (nat + string) :=
  λ σ, let w := log (WsConnect url extra_headers) σ.2 in
       match ws_connects w with
       | [] => (Hang, (σ.1, w))
       | inl _ :: script' =>
           (Ret (inl (ws_opened w)),
            (σ.1, set_ws_opened (S (ws_opened w)) (set_ws_connects script' w)))
       | inr msg :: script' => (Ret (inr msg), (σ.1, set_ws_connects script' w))
       end.

(** [self.websocket.send(data)]; [self.websocket] may still be [None]. *)
Definition websocket_send (data : string) : M unit :=
  λ σ, match websocket σ.1 with
       | None => (Raise AttributeError, σ)
       | Some ws =>
           let w := log (WsSend ws data) σ.2 in
           answer (ws_sends w) set_ws_sends σ.1 w
       end.

(** [self.websocket.recv()] *)
Definition websocket_recv : M string :=
  λ σ, match websocket σ.1 with
       | None => (Raise AttributeError, σ)
       | Some ws =>
           let w := log (WsRecv ws) σ.2 in
           answer (ws_recvs w) set_ws_recvs σ.1 w
       end.

(** [json.dumps(data)] *)
Definition dumps (data : pyval) : M string :=
  λ σ, match json_dumps σ.2 data with
       | inl txt => (Ret txt, σ)
       | inr e => (Raise e, σ)
       end.

(** [v[k]] for a string [k]: only a dict can be subscripted by a string. *)
Definition subscript {σ} (v : pyval) (k : string) : St σ pyval :=
  match v with
  | PDict d =>
      match dict_get k d with
      | Some x => mret x
      | None => raise (KeyError k)
      end
  | _ => raise TypeError
  end.

(** ** The directory *)

(** Modelled from the spec: [SearchList.find] of [util.py], which is not
    among the sources.  Lookup of a channel by identifier or by name: an
    exact match on the identifier first, then a match on the name, the first
    match winning. *)
Definition find (key : pyval) (l : list Channel.t) : option Channel.t :=
  match List.find (λ c, pyval_eqb (Channel.id c) key) l with
  | Some c => Some c
  | None => List.find (λ c, pyval_eqb (Channel.name c) key) l
  end.

(** [attach_user]: [self.users.update({user_id: User(...)})] *)
Definition attach_user (name user_id real_name tz : pyval) : M unit :=
  match as_key user_id with
  | None => raise TypeError
  | Some k =>
      assign (λ s, set_users (<[k := User.Build name user_id real_name tz]> (users s)) s)
  end.

(** [attach_channel] *)
Definition attach_channel (name channel_id members : pyval) : M unit :=
  let members := if is_none members then PList [] else members in
  chans ← self channels;
  match find channel_id chans with
  | None =>
      assign (λ s, set_channels (channels s ++ [Channel.Build name channel_id members]) s)
  | Some _ => mret ()
  end.

(** ** Parsing the login snapshot *)

(** The parsing loops assign into the records they iterate over, so a loop
    body runs over the record it is given together with the rest of the
    state, and the loop hands back the records as it leaves them. *)
Definition lift {X σ A} (m : St σ A) : St (X * σ) A :=
  λ st, let '(r, s') := m st.2 in (r, (st.1, s')).

Section records.
Context {σ : Type}.

(** [k in record].  On a record that is not a dict the test itself or the
    subscript that follows it raises [TypeError], before any assignment. *)
Definition contains (k : string) : St (pyval * σ) bool :=
  λ st, match st.1 with
        | PDict d => (Ret (dict_mem k d), st)
        | _ => (Raise TypeError, st)
        end.

(** [record[k]] *)
Definition item (k : string) : St (pyval * σ) pyval :=
  λ st, subscript st.1 k st.

(** [record[k] = v] *)
Definition setitem (k : string) (v : pyval) : St (pyval * σ) unit :=
  λ st, match st.1 with
        | PDict d => (Ret (), (PDict (dict_set k v d), st.2))
        | _ => (Raise TypeError, st)
        end.

(** [for x in l: body], with the elements as the loop leaves them. *)
Fixpoint for_in (body : St (pyval * σ) unit) (l : list pyval) (s : σ)
    : outcome unit * (list pyval * σ) :=
  match l with
  | [] => (Ret (), ([], s))
  | x :: rest =>
      match body (x, s) with
      | (Ret _, (x', s')) =>
          let '(r, (rest', s'')) := for_in body rest s' in (r, (x' :: rest', s''))
      | (r, (x', s')) => (r, (x' :: rest, s'))
      end
  end.

(** The characters of a string, what iterating over it yields. *)
Fixpoint chars (s : string) : list pyval :=
  match s with
  | EmptyString => []
  | String c s' => PStr (String c EmptyString) :: chars s'
  end.

(** [for x in v: body] for the object [v] of the state: a list yields its
    elements, a dict its keys, a string its characters; anything else is
    not iterable. *)
Definition for_each (body : St (pyval * σ) unit) : St (pyval * σ) unit :=
  λ st, match st.1 with
        | PList l =>
            let '(r, (l', s')) := for_in body l st.2 in (r, (PList l', s'))
        | PDict d =>
            let '(r, (_, s')) := for_in body ((λ kv, PStr kv.1) <$> d) st.2 in
            (r, (st.1, s'))
        | PStr str =>
            let '(r, (_, s')) := for_in body (chars str) st.2 in (r, (st.1, s'))
        | _ => (Raise TypeError, st)
        end.
End records.

(** The body of the loop of [parse_channel_data], on one record. *)
Definition parse_channel : St (pyval * (Server * World)) unit :=
  has_name ← contains "name";
  (if negb has_name then i ← item "id"; setitem "name" i else mret ());;
  has_members ← contains "members";
  (if negb has_members then setitem "members" (PList []) else mret ());;
  name ← item "name";
  id ← item "id";
  members ← item "members";
  lift (attach_channel name id members).

(** [parse_channel_data(channel_data)], [channel_data] being the object of
    the state. *)
Definition parse_channel_data : St (pyval * (Server * World)) unit :=
  for_each parse_channel.

(** The body of the loop of [parse_user_data], on one record. *)
Definition parse_user : St (pyval * (Server * World)) unit :=
  has_tz ← contains "tz";
  (if negb has_tz then setitem "tz" (PStr "unknown") else mret ());;
  has_real_name ← contains "real_name";
  (if negb has_real_name then n ← item "name"; setitem "real_name" n else mret ());;
  name ← item "name";
  id ← item "id";
  real_name ← item "real_name";
  tz ← item "tz";
  lift (attach_user name id real_name tz).

(** [parse_user_data(user_data)] *)
Definition parse_user_data : St (pyval * (Server * World)) unit :=
  for_each parse_user.

(** [parse(self.login_data[k])]: the parser runs on the very object held
    under [k], so what it assigns shows in [self.login_data]. *)
Definition in_place (k : string) (v : pyval)
    (parse : St (pyval * (Server * World)) unit) : M unit :=
  λ σ, let '(r, (v', σ')) := parse (v, σ) in
       (r, (set_login_data
              (match login_data σ'.1 with
               | PDict d => PDict (dict_set k v' d)
               | other => other
               end) σ'.1, σ'.2)).

Definition on_login_data (k : string) (parse : St (pyval * (Server * World)) unit) : M unit :=
  ld ← self login_data;
  v ← subscript ld k;
  in_place k v parse.

(** [parse_slack_login_data(login_data, use_rtm_start)]; after its first
    assignment [login_data] and [self.login_data] are one object. *)
Definition parse_slack_login_data (snapshot : pyval) (use_rtm_start : bool) : M unit :=
  assign (set_login_data snapshot);;
  ld ← self login_data;
  team ← subscript ld "team";
  d ← subscript team "domain";
  assign (set_domain d);;
  ld ← self login_data;
  me ← subscript ld "self";
  n ← subscript me "name";
  assign (set_username n);;
  if use_rtm_start then
    on_login_data "channels" parse_channel_data;;
    on_login_data "groups" parse_channel_data;;
    on_login_data "users" parse_user_data;;
    on_login_data "ims" parse_channel_data
  else mret ().

(** ** Connecting *)

(** [s.split(sep)] for a one-character separator. *)
Fixpoint split (sep : ascii) (s : string) : list string :=
  match s with
  | EmptyString => [EmptyString]
  | String c s' =>
      if Ascii.eqb c sep then EmptyString :: split sep s'
      else match split sep s' with
           | [] => [String c EmptyString]
           | word :: words => String c word :: words
           end
  end.

(** [parse_url(url)] *)
Definition call_parse_url (url : string) : M Url :=
  λ σ, match parse_url σ.2 url with
       | inl parts => (Ret parts, σ)
       | inr e => (Raise e, σ)
       end.

Definition opt_str (o : option string) : pyval :=
  match o with Some s => PStr s | None => PNone end.

Definition opt_int (o : option Z) : pyval :=
  match o with Some n => PInt n | None => PNone end.

(** [auth and auth.split(':')] *)
Definition split_auth (auth : option string) : pyval :=
  if truthy (opt_str auth)
  then PList (PStr <$> split ":"%char (default EmptyString auth))
  else opt_str auth.

(** The first statement of [_connect_slack_websocket]: the proxy host, port
    and credentials.  A dict with an ['http'] entry is not empty, hence true. *)
Definition proxy_settings : M (pyval * pyval * pyval) :=
  px ← self proxies;
  match px ≫= (.!! "http") with
  | Some url =>
      parts ← call_parse_url url;
      mret (opt_str (host parts), opt_int (port parts), split_auth (auth parts))
  | None => mret (PNone, PNone, PNone)
  end.

(** [_connect_slack_websocket(ws_url)] *)
Definition _connect_slack_websocket (ws_url : pyval) : M unit :=
  '(proxy_host, proxy_port, proxy_auth) ← proxy_settings;
  r ← wsclient_connect ws_url
        [("http_proxy_host", proxy_host);
         ("http_proxy_port", proxy_port);
         ("http_proxy_auth", proxy_auth)];
  match r with
  | inl ws => assign (set_websocket (Some ws))
  | inr msg => raise (SlackConnectionError (Some msg))
  end.

(** [connect_slack_websocket(ws_url)] runs the coroutine to completion. *)
Definition connect_slack_websocket (ws_url : pyval) : M unit :=
  _connect_slack_websocket ws_url.

(** [rtm_connect(reconnect, timeout, use_rtm_start, **kwargs)] *)
Definition rtm_connect (reconnect : bool) (timeout : pyval) (use_rtm_start : bool)
    (kwargs : dict) : M unit :=
  let connect_method := if use_rtm_start then "rtm.start" else "rtm.connect" in
  tok ← self token;
  reply ← api_requester_do tok connect_method (PDict kwargs) timeout;
  if negb (status_code reply =? 200) then raise (SlackConnectionError None)
  else
    snapshot ← reply_json reply;
    ok ← subscript snapshot "ok";
    if truthy ok then
      url ← subscript snapshot "url";
      assign (set_ws_url url);;
      url ← self ws_url;
      connect_slack_websocket url;;
      if negb reconnect then parse_slack_login_data snapshot use_rtm_start
      else mret ()
    else raise SlackLoginError.

(** [Server(token, connect, proxies)] *)
Definition new (token : string) (proxies : option (gmap string string)) : Server :=
  {| token := token; username := PNone; domain := PNone; login_data := PNone;
     websocket := None; users := ∅; channels := []; connected := false;
     ws_url := PNone; proxies := proxies |}.

Definition init (token : string) (connect : bool) (proxies : option (gmap string string))
    (w : World) : outcome unit * (Server * World) :=
  if connect then rtm_connect false PNone true [] (new token proxies, w)
  else (Ret (), (new token proxies, w)).

(** ** Sending *)

(** The body of the [try] of [send_to_websocket]. *)
Definition send_attempt (data : pyval) : M unit :=
  txt ← dumps data;
  websocket_send txt.

(** [send_to_websocket(data)] *)
Definition send_to_websocket (data : pyval) : M unit :=
  try_except (send_attempt data) (rtm_connect true PNone true []).

(** [rtm_send_message(channel, message, thread, reply_broadcast)] *)
Definition rtm_send_message (channel message thread reply_broadcast : pyval) : M unit :=
  let message_json :=
    [("type", PStr "message"); ("channel", channel); ("text", message)] in
  let message_json :=
    if negb (is_none thread) then
      let message_json := dict_set "thread_ts" thread message_json in
      if truthy reply_broadcast
      then dict_set "reply_broadcast" (PBool true) message_json
      else message_json
    else message_json in
  send_to_websocket (PDict message_json).

(** [ping()] *)
Definition ping : M unit :=
  send_to_websocket (PDict [("type", PStr "ping")]).

(** ** Receiving *)

(** [c.isspace()] on the ASCII range. *)
Definition isspace (c : ascii) : bool :=
  let n := nat_of_ascii c in
  ((9 <=? n) && (n <=? 13) || (28 <=? n) && (n <=? 32))%nat.

(** [s.rstrip()] *)
Fixpoint rstrip (s : string) : string :=
  match s with
  | EmptyString => EmptyString
  | String c s' =>
      match rstrip s' with
      | EmptyString => if isspace c then EmptyString else String c EmptyString
      | t => String c t
      end
  end.

(** The read coroutine runs over the future [readop] it is given, [None]
    while the future has no result, and over the object and the world. *)
Definition R (A : Type) : Type := St (option string * (Server * World)) A.

(** [readop.set_result(v)]: a future takes a result once. *)
Definition set_result (v : string) : R unit :=
  λ st, match st.1 with
        | None => (Ret (), (Some v, st.2))
        | Some _ => (Raise InvalidStateError, st)
        end.

(** [readop.result()] *)
Definition result : R string :=
  λ st, match st.1 with
        | Some v => (Ret v, st)
        | None => (Raise InvalidStateError, st)
        end.

Definition newline : string := String "010"%char EmptyString.

(** One turn of the [while True] loop of [_websocket_safe_read]: [Some data]
    to go round again with the text gathered so far, [None] when the
    coroutine returns (it returns [''], which its caller drops). *)
Definition read_turn (data : string) : R (option string) :=
  λ st, match lift websocket_recv st with
        | (Ret frame, st') =>
            let data := data +:+ frame +:+ newline in
            (set_result (rstrip data);; mret (Some data)) st'
        | (Raise (SSLError errno), st') =>
            if bool_decide (errno = Some 2) then (Ret None, st')
            else (Raise (SSLError errno), st')
        | (Raise e, st') => (Raise e, st')
        | (Hang, st') => (Hang, st')
        end.

(** The loop, for at most [turns] turns; see [read_loop_turns]: one more
    turn than there are answers in the script of [recv] is as good as
    [while True], and this is what [_websocket_safe_read] takes. *)
Fixpoint read_loop (turns : nat) (data : string) : R unit :=
  match turns with
  | O => λ st, (Hang, st)
  | S turns' =>
      r ← read_turn data;
      match r with
      | Some data' => read_loop turns' data'
      | None => mret ()
      end
  end.

(** [_websocket_safe_read(readop, blocking)] *)
Definition _websocket_safe_read (blocking : bool) : R unit :=
  let data := EmptyString in
  if negb blocking then
    λ st, read_loop (S (length (ws_recvs st.2.2))) data st
  else
    rawdata ← lift websocket_recv;
    let data := data +:+ rawdata +:+ newline in
    set_result (rstrip data).

(** [websocket_safe_read(blocking)] *)
Definition websocket_safe_read (blocking : bool) : M string :=
  λ σ, match (_websocket_safe_read blocking;; result) (None, σ) with
       | (r, (_, σ')) => (r, σ')
       end.

(** ** Describing what the methods do *)

(** Induction over a value and the values nested in it. *)
Section pyval_ind.
Variable P : pyval → Prop.
Hypothesis HNone : P PNone.
Hypothesis HBool : ∀ b, P (PBool b).
Hypothesis HInt : ∀ n, P (PInt n).
Hypothesis HStr : ∀ s, P (PStr s).
Hypothesis HList : ∀ l, Forall P l → P (PList l).
Hypothesis HDict : ∀ d, Forall (λ kv, P kv.2) d → P (PDict d).

Fixpoint pyval_nested_ind (v : pyval) : P v :=
  match v with
  | PNone => HNone
  | PBool b => HBool b
  | PInt n => HInt n
  | PStr s => HStr s
  | PList l =>
      HList l ((fix go (l : list pyval) : Forall P l :=
                  match l with
                  | [] => Forall_nil_2 P
                  | x :: l' => Forall_cons_2 P x l' (pyval_nested_ind x) (go l')
                  end) l)
  | PDict d =>
      HDict d ((fix go (d : list (string * pyval)) : Forall (λ kv, P kv.2) d :=
                  match d with
                  | [] => Forall_nil_2 _
                  | kv :: d' =>
                      Forall_cons_2 (λ kv, P kv.2) kv d' (pyval_nested_ind kv.2) (go d')
                  end) d)
  end.
End pyval_ind.

(** [keeps I m]: whatever its outcome, [m] takes a state to one related to
    it by [I]. *)
Definition keeps {σ A} (I : relation σ) (m : St σ A) : Prop :=
  ∀ s, I s (m s).2.

(** The relation [I] on the state beside a record. *)
Definition beside {σ} (I : relation σ) {X} : relation (X * σ) :=
  λ st st', I st.2 st'.2.

(** Two states with the same link to Slack: the fields other than the
    snapshot fields and the directory, and the world. *)
Definition same_link : relation (Server * World) :=
  λ σ σ', token σ'.1 = token σ.1 ∧ websocket σ'.1 = websocket σ.1
          ∧ connected σ'.1 = connected σ.1 ∧ ws_url σ'.1 = ws_url σ.1
          ∧ proxies σ'.1 = proxies σ.1 ∧ σ'.2 = σ.2.

(** Two states with the same object. *)
Definition same_server : relation (Server * World) := λ σ σ', σ'.1 = σ.1.

(** Two states with the same directory. *)
Definition same_directory : relation (Server * World) :=
  λ σ σ', users σ'.1 = users σ.1 ∧ channels σ'.1 = channels σ.1.

(** Two states with the same [connected]. *)
Definition same_flag : relation (Server * World) :=
  λ σ σ', connected σ'.1 = connected σ.1.

(** The number of requests made to the API so far. *)
Definition is_api_call (e : Event) : bool :=
  match e with ApiCall _ _ _ _ => true | _ => false end.

Definition api_calls (w : World) : nat := length (List.filter is_api_call (trace w)).

Definition same_api_calls : relation (Server * World) :=
  λ σ σ', api_calls σ'.2 = api_calls σ.2.

(** The proxy settings can be read: the proxy URL, if there is one, parses. *)
Definition proxy_readable (s : Server) (w : World) : Prop :=
  ∀ url, proxies s ≫= (.!! "http") = Some url → ∃ parts, parse_url w url = inl parts.

(** The headers [_connect_slack_websocket] passes to [wsclient.connect]. *)
Definition extra_headers (s : Server) (w : World) : dict :=
  match proxies s ≫= (.!! "http") with
  | Some url =>
      match parse_url w url with
      | inl parts =>
          [("http_proxy_host", opt_str (host parts));
           ("http_proxy_port", opt_int (port parts));
           ("http_proxy_auth", split_auth (auth parts))]
      | inr _ => []
      end
  | None =>
      [("http_proxy_host", PNone); ("http_proxy_port", PNone); ("http_proxy_auth", PNone)]
  end.

(** The world once the request of [rtm_connect] is answered. *)
Definition answered (timeout : pyval) (use_rtm_start : bool) (kwargs : dict)
    (s : Server) (w : World) (rest : list (Reply + exn)) : World :=
  set_api_replies rest
    (log (ApiCall (token s) (if use_rtm_start then "rtm.start" else "rtm.connect")
            (PDict kwargs) timeout) w).

(** The record of a channel once the loop body has filled in what it lacks. *)
Definition filled_channel (id : pyval) (d : dict) : dict :=
  let d := if dict_mem "name" d then d else dict_set "name" id d in
  if dict_mem "members" d then d else dict_set "members" (PList []) d.

(** The record of a user once the loop body has filled in what it lacks. *)
Definition filled_user (name : pyval) (d : dict) : dict :=
  let d := if dict_mem "tz" d then d else dict_set "tz" (PStr "unknown") d in
  if dict_mem "real_name" d then d else dict_set "real_name" name d.

(** A record that [parse_channel_data] can attach: a dict with an [id]. *)
Definition channel_record (v : pyval) : Prop :=
  ∃ d id, v = PDict d ∧ dict_get "id" d = Some id.

(** A record that [parse_user_data] can attach: a dict with a [name] and a
    hashable [id]. *)
Definition user_record (v : pyval) : Prop :=
  ∃ d id name k,
    v = PDict d ∧ dict_get "id" d = Some id ∧ as_key id = Some k
    ∧ dict_get "name" d = Some name.

(** ** Sample sessions *)

(** A world in which nothing answers. *)
Definition silent : World :=
  {| api_replies := []; ws_connects := []; ws_sends := []; ws_recvs := [];
     json_dumps := λ _, inl "frame"; parse_url := λ _, inr ValueError;
     ws_opened := 0; trace := [] |}.

(** An [rtm.start] answer with one channel and one user, both without their
    optional fields. *)
Definition sample_snapshot : dict :=
  [("ok", PBool true);
   ("url", PStr "wss://example.test/ws");
   ("team", PDict [("domain", PStr "acme")]);
   ("self", PDict [("name", PStr "bot")]);
   ("channels", PList [PDict [("id", PStr "C1")]]);
   ("groups", PList []);
   ("users", PList [PDict [("id", PStr "U1"); ("name", PStr "ann")]]);
   ("ims", PList [])].

Definition sample_reply (snapshot : dict) : Reply :=
  {| status_code := 200; json := Some (PDict snapshot); text := EmptyString |}.

(** The handshake is answered and the websocket opens. *)
Definition welcoming : World :=
  set_ws_connects [inl ()] (set_api_replies [inl (sample_reply sample_snapshot)] silent).

(** The handshake is answered and the websocket does not open. *)
Definition unreachable : World :=
  set_ws_connects [inr "refused"]
    (set_api_replies [inl (sample_reply sample_snapshot)] silent).

(** The handshake is answered with [ok] false. *)
Definition refusing : World :=
  set_api_replies [inl (sample_reply [("ok", PBool false)])] silent.

(** A server holding connection 0, and a world in which that connection
    reports that no data has come yet ([SSLError] with [errno] 2). *)
Definition listening : Server := set_websocket (Some 0%nat) (new "xoxb-1" None).

Definition no_data_yet : World :=
  set_ws_opened 1 (set_ws_recvs [inr (SSLError (Some 2))] silent).

(** The connection is broken: the send fails; the handshake of the reconnect
    is then answered and the websocket opens again. *)
Definition broken : World :=
  set_ws_sends [inr (CollaboratorError "broken pipe")] (set_ws_opened 1 welcoming).

(** A directory with one channel and one user. *)
Definition general : Channel.t :=
  Channel.Build (PStr "general") (PStr "C1") (PList [PStr "U1"]).

Definition ann : User.t :=
  User.Build (PStr "ann") (PStr "U1") (PStr "Ann Lee") (PStr "Europe/Paris").

Definition populated : Server :=
  set_users {[ KStr "U1" := ann ]} (set_channels [general] (new "xoxb-1" None)).

(** ** Calls to the Web API *)

(** [api_call(method, timeout, **kwargs)] *)
Definition api_call (method : string) (timeout : pyval) (kwargs : dict) : M string :=
  tok ← self token;
  reply ← api_requester_do tok method (PDict kwargs) timeout;
  mret (text reply).

(** [join_channel(name, timeout)]; the request is made without [post_data]. *)
Definition join_channel (name : string) (timeout : pyval) : M string :=
  tok ← self token;
  reply ← api_requester_do tok ("channels.join?name=" +:+ name) PNone timeout;
  mret (text reply).

(** ** More ways to describe what the methods do *)

(** The trace of the second state continues the trace of the first. *)
Definition trace_grows : relation (Server * World) :=
  λ σ σ', ∃ more, trace σ'.2 = (trace σ.2 ++ more)%list.

(** The number of texts handed to [websocket.send] so far. *)
Definition is_ws_send (e : Event) : bool :=
  match e with WsSend _ _ => true | _ => false end.

Definition ws_send_calls (w : World) : nat := length (List.filter is_ws_send (trace w)).

Definition same_ws_send_calls : relation (Server * World) :=
  λ σ σ', ws_send_calls σ'.2 = ws_send_calls σ.2.

(** The number of connections asked of [wsclient.connect] so far. *)
Definition is_ws_connect (e : Event) : bool :=
  match e with WsConnect _ _ => true | _ => false end.

Definition ws_connect_calls (w : World) : nat :=
  length (List.filter is_ws_connect (trace w)).

(** Two states that differ in the directory and the retained snapshot at
    most. *)
Definition same_but_directory : relation (Server * World) :=
  λ σ σ', token σ'.1 = token σ.1 ∧ username σ'.1 = username σ.1
          ∧ domain σ'.1 = domain σ.1 ∧ websocket σ'.1 = websocket σ.1
          ∧ connected σ'.1 = connected σ.1 ∧ ws_url σ'.1 = ws_url σ.1
          ∧ proxies σ'.1 = proxies σ.1 ∧ σ'.2 = σ.2.

(** Answers to the handshake that cannot be used: a body that is not JSON,
    an object without [ok], an accepted handshake without [url]. *)
Definition garbled : World :=
  set_api_replies [inl {| status_code := 200; json := None; text := "<html>" |}] silent.

Definition without_ok : World :=
  set_api_replies [inl (sample_reply [("url", PStr "wss://example.test/ws")])] silent.

Definition without_url : World :=
  set_api_replies [inl (sample_reply [("ok", PBool true)])] silent.

(** An accepted handshake whose answer names no team. *)
Definition teamless : World :=
  set_ws_connects [inl ()]
    (set_api_replies
       [inl (sample_reply [("ok", PBool true); ("url", PStr "wss://example.test/ws")])]
       silent).

(** A channel record whose identifier the lookup already finds. *)
Definition findable (chans : list Channel.t) (v : pyval) : Prop :=
  ∃ d id, v = PDict d ∧ dict_get "id" d = Some id ∧ is_Some (find id chans).

(** A channel record as the loop of [parse_channel_data] leaves it. *)
Definition fill_channel_record (v : pyval) : pyval :=
  match v with
  | PDict d =>
      match dict_get "id" d with
      | Some id => PDict (filled_channel id d)
      | None => v
      end
  | _ => v
  end.

(** A channel record whose identifier a channel of the list has. *)
Definition known_channel (chans : list Channel.t) (v : pyval) : Prop :=
  ∃ d id c, v = PDict d ∧ dict_get "id" d = Some id ∧ c ∈ chans ∧ Channel.id c = id.

(** The exception by which [recv] says that no data has come yet:
    [SSLError] with [errno] 2. *)
Definition no_data (e : exn) : bool :=
  match e with
  | SSLError errno => bool_decide (errno = Some 2)
  | _ => false
  end.

(** Two states with the same world. *)
Definition same_world : relation (Server * World) := λ σ σ', σ'.2 = σ.2.

(** The trace of the second state continues the trace of the first with
    events of one kind. *)
Definition adds_only (p : Event → bool) : relation (Server * World) :=
  λ σ σ', ∃ more, trace σ'.2 = (trace σ.2 ++ more)%list ∧ forallb p more = true.

Definition is_ws_recv (e : Event) : bool :=
  match e with WsRecv _ => true | _ => false end.

(** A server behind an HTTP proxy, and worlds in which the URL of the proxy
    parses and does not parse. *)
Definition proxied : Server :=
  new "xoxb-1" (Some {[ "http" := "http://user:pw@proxy.test:3128" ]}).

Definition proxy_parts : Url :=
  {| host := Some "proxy.test"; port := Some 3128; auth := Some "user:pw" |}.

Definition parsing : World :=
  {| api_replies := []; ws_connects := [inl ()]; ws_sends := []; ws_recvs := [];
     json_dumps := λ _, inl "frame"; parse_url := λ _, inl proxy_parts;
     ws_opened := 0; trace := [] |}.

(** ** Facts about values *)

Lemma pyval_eqb_refl (v : pyval) : pyval_eqb v v = true.
Proof.
  induction v as [| b | n | s | l IH | d IH] using pyval_nested_ind; simpl.
  - done.
  - by destruct b.
  - apply Z.eqb_refl.
  - apply String.eqb_refl.
  - induction IH as [| x l Hx _ IHl]; [done |]. by rewrite Hx, IHl.
  - induction IH as [| [k x] d Hx _ IHd]; [done |].
    simpl in Hx. by rewrite String.eqb_refl, Hx, IHd.
Qed.

Lemma pyval_eqb_eq (a b : pyval) : pyval_eqb a b = true ↔ a = b.
Proof.
  split; [| intros ->; apply pyval_eqb_refl].
  revert b.
  induction a as [| x | x | x | l IH | d IH] using pyval_nested_ind;
    intros [| y | y | y | m | e]; simpl; try done.
  - intros H. f_equal. by apply Bool.eqb_prop.
  - intros H. f_equal. by apply Z.eqb_eq.
  - intros H. f_equal. by apply String.eqb_eq.
  - intros H. f_equal. revert m H.
    induction IH as [| x l Hx _ IHl]; intros [| y m]; try done.
    intros [Hxy Hlm]%andb_true_iff. f_equal; auto.
  - intros H. f_equal. revert e H.
    induction IH as [| [k x] d Hx _ IHd]; intros [| [k' y] e]; try done.
    intros [[Hk Hxy]%andb_true_iff Hde]%andb_true_iff.
    apply String.eqb_eq in Hk as ->. simpl in Hx. f_equal; auto. f_equal; auto.
Qed.

(** ** What a computation leaves alone *)

Section keeps.
Context {σ : Type} (I : relation σ) `{!PreOrder I}.

Lemma keeps_ret {A} (a : A) : keeps I (mret a : St σ A).
Proof. intros s. simpl. reflexivity. Qed.

Lemma keeps_raise {A} (e : exn) : keeps I (raise e : St σ A).
Proof. intros s. simpl. reflexivity. Qed.

Lemma keeps_gets {A} (f : σ → A) : keeps I (gets f).
Proof. intros s. simpl. reflexivity. Qed.

Lemma keeps_bind {A B} (m : St σ A) (k : A → St σ B) :
  keeps I m → (∀ a, keeps I (k a)) → keeps I (m ≫= k).
Proof.
  intros Hm Hk s. unfold mbind, St_bind, st_bind.
  specialize (Hm s). destruct (m s) as [[a | e |] s']; simpl in *; try done.
  etrans; [exact Hm | apply Hk].
Qed.

Lemma keeps_try_except {A} (body handler : St σ A) :
  keeps I body → keeps I handler → keeps I (try_except body handler).
Proof.
  intros Hb Hh s. unfold try_except.
  specialize (Hb s). destruct (body s) as [[a | e |] s']; simpl in *; try done.
  etrans; [exact Hb | apply Hh].
Qed.

Lemma keeps_subscript (v : pyval) (k : string) : keeps I (subscript v k).
Proof.
  destruct v as [| b | n | str | l | d]; try apply keeps_raise. simpl.
  destruct (dict_get k d); [apply keeps_ret | apply keeps_raise].
Qed.
End keeps.

(** The same for the loops over records: what the body keeps on the state
    beside the record, the loop keeps. *)
Section keeps_records.
Context {σ : Type} (I : relation σ) `{!PreOrder I}.

Global Instance beside_preorder {X} : PreOrder (beside I (X:=X)).
Proof.
  split; [intros st; unfold beside; reflexivity |].
  intros a b c; unfold beside; apply transitivity.
Qed.

Lemma keeps_lift {X A} (m : St σ A) : keeps I m → keeps (beside I) (lift m : St (X * σ) A).
Proof.
  intros Hm [v s]. unfold lift, beside. simpl. specialize (Hm s).
  by destruct (m s).
Qed.

Lemma keeps_contains (k : string) : keeps (beside I) (contains k : St (pyval * σ) bool).
Proof. intros [v s]. unfold contains, beside. destruct v; simpl; reflexivity. Qed.

Lemma keeps_item (k : string) : keeps (beside I) (item k : St (pyval * σ) pyval).
Proof. intros st. unfold item. apply (keeps_subscript (beside I)). Qed.

Lemma keeps_setitem (k : string) (v : pyval) :
  keeps (beside I) (setitem k v : St (pyval * σ) unit).
Proof. intros [r s]. unfold setitem, beside. destruct r; simpl; reflexivity. Qed.

Lemma keeps_for_in (body : St (pyval * σ) unit) (l : list pyval) (s : σ) :
  keeps (beside I) body → I s (for_in body l s).2.2.
Proof.
  intros Hb. revert s. induction l as [| x rest IH]; intros s; simpl; [reflexivity |].
  specialize (Hb (x, s)). unfold beside in Hb. simpl in Hb.
  destruct (body (x, s)) as [[[] | e |] [x' s']]; simpl in *; try done.
  specialize (IH s'). destruct (for_in body rest s') as [r [rest' s'']]. simpl in *.
  by etrans.
Qed.

Lemma keeps_for_each (body : St (pyval * σ) unit) :
  keeps (beside I) body → keeps (beside I) (for_each body).
Proof.
  intros Hb [v s]. unfold for_each, beside. simpl.
  destruct v as [| | | str | l | d]; simpl; try reflexivity.
  - pose proof (keeps_for_in body (chars str) s Hb) as H.
    by destruct (for_in body (chars str) s) as [r [l' s']].
  - pose proof (keeps_for_in body l s Hb) as H.
    by destruct (for_in body l s) as [r [l' s']].
  - pose proof (keeps_for_in body ((λ kv, PStr kv.1) <$> d) s Hb) as H.
    by destruct (for_in body ((λ kv, PStr kv.1) <$> d) s) as [r [l' s']].
Qed.
End keeps_records.

(** *** Parsing touches the snapshot fields and the directory only *)

Global Instance same_link_preorder : PreOrder same_link.
Proof.
  split; [by intros σ |].
  intros a b c (? & ? & ? & ? & ? & ?) (? & ? & ? & ? & ? & ?).
  repeat split; congruence.
Qed.

(** Walks down a computation made of binds, with [leaf] for the calls that
    have a lemma of their own. *)
Ltac keeps_with leaf :=
  repeat first
    [ lazymatch goal with |- PreOrder _ => apply _ end
    | leaf
    | apply keeps_ret | apply keeps_raise | apply keeps_gets
    | apply keeps_subscript | apply keeps_contains | apply keeps_item
    | apply keeps_setitem
    | apply keeps_bind; [| | intros ?] ].

Ltac keeps_steps := keeps_with fail.

Lemma attach_user_link (name user_id real_name tz : pyval) :
  keeps same_link (attach_user name user_id real_name tz).
Proof.
  unfold attach_user. destruct (as_key user_id); [| keeps_steps].
  by intros [s w].
Qed.

Lemma attach_channel_link (name channel_id members : pyval) :
  keeps same_link (attach_channel name channel_id members).
Proof.
  unfold attach_channel. intros [s w]. simpl.
  unfold mbind, St_bind, st_bind, self, gets. simpl.
  by destruct (find channel_id (channels s)).
Qed.

Lemma parse_channel_link : keeps (beside same_link) parse_channel.
Proof.
  unfold parse_channel. keeps_steps.
  - case_match; keeps_steps.
  - case_match; keeps_steps.
  - apply keeps_lift, attach_channel_link.
Qed.

Lemma parse_user_link : keeps (beside same_link) parse_user.
Proof.
  unfold parse_user. keeps_steps.
  - case_match; keeps_steps.
  - case_match; keeps_steps.
  - apply keeps_lift, attach_user_link.
Qed.

Lemma in_place_link (k : string) (v : pyval) (parse : St (pyval * (Server * World)) unit) :
  keeps (beside same_link) parse → keeps same_link (in_place k v parse).
Proof.
  intros Hp σ. unfold in_place. specialize (Hp (v, σ)).
  destruct (parse (v, σ)) as [r [v' [s' w']]]. unfold beside in Hp. simpl in *.
  destruct Hp as (? & ? & ? & ? & ? & ?). by repeat split.
Qed.

Lemma on_login_data_link (k : string) (parse : St (pyval * (Server * World)) unit) :
  keeps (beside same_link) parse → keeps same_link (on_login_data k parse).
Proof.
  intros Hp. unfold on_login_data.
  keeps_with ltac:(first [by apply in_place_link]).
Qed.

Lemma parse_slack_login_data_link (snapshot : pyval) (use_rtm_start : bool) :
  keeps same_link (parse_slack_login_data snapshot use_rtm_start).
Proof.
  unfold parse_slack_login_data.
  assert (Hc : ∀ k, keeps same_link (on_login_data k parse_channel_data))
    by (intros k; apply on_login_data_link, keeps_for_each, parse_channel_link; apply _).
  assert (Hu : ∀ k, keeps same_link (on_login_data k parse_user_data))
    by (intros k; apply on_login_data_link, keeps_for_each, parse_user_link; apply _).
  keeps_with ltac:(first [apply Hc | apply Hu | by intros [s w]]).
  destruct use_rtm_start; keeps_with ltac:(first [apply Hc | apply Hu]).
Qed.

(** *** The collaborators do not touch the object *)

Global Instance same_server_preorder : PreOrder same_server.
Proof. split; [by intros σ |]. intros a b c; unfold same_server; congruence. Qed.

Lemma keeps_weaken {σ A} (I J : relation σ) (m : St σ A) :
  (∀ s s', I s s' → J s s') → keeps I m → keeps J m.
Proof. intros HIJ Hm s. apply HIJ, Hm. Qed.

Lemma answer_server {A} (script : list (A + exn)) rest (s : Server) (w : World) :
  (answer script rest s w).2.1 = s.
Proof. by destruct script as [| [a | e] script']. Qed.

Lemma api_requester_do_server (tok request : string) (post_data timeout : pyval) :
  keeps same_server (api_requester_do tok request post_data timeout).
Proof. intros [s w]. apply answer_server. Qed.

Lemma reply_json_server (reply : Reply) : keeps same_server (reply_json reply).
Proof. unfold reply_json. by destruct (json reply); intros σ. Qed.

Lemma wsclient_connect_server (url : pyval) (extra_headers : dict) :
  keeps same_server (wsclient_connect url extra_headers).
Proof.
  intros [s w]. unfold wsclient_connect, same_server. simpl.
  by destruct (ws_connects w) as [| [[] | msg] script'].
Qed.

Lemma websocket_send_server (data : string) : keeps same_server (websocket_send data).
Proof.
  intros [s w]. unfold websocket_send, same_server. simpl.
  destruct (websocket s); [apply answer_server | done].
Qed.

Lemma websocket_recv_server : keeps same_server websocket_recv.
Proof.
  intros [s w]. unfold websocket_recv, same_server. simpl.
  destruct (websocket s); [apply answer_server | done].
Qed.

Lemma dumps_server (data : pyval) : keeps same_server (dumps data).
Proof. intros [s w]. unfold dumps, same_server. simpl. by destruct (json_dumps w data). Qed.

Lemma proxy_settings_server : keeps same_server proxy_settings.
Proof.
  unfold proxy_settings. keeps_steps. case_match; keeps_steps.
  intros [srv w]. unfold call_parse_url, same_server. simpl. by destruct (parse_url w _).
Qed.

(** *** A reconnect leaves the directory alone; no connect sets the flag *)

Global Instance same_directory_preorder : PreOrder same_directory.
Proof.
  split; [by intros σ |].
  intros a b c [? ?] [? ?]. split; congruence.
Qed.

Global Instance same_flag_preorder : PreOrder same_flag.
Proof. split; [by intros σ |]. intros a b c; unfold same_flag; congruence. Qed.

Lemma same_server_directory σ σ' : same_server σ σ' → same_directory σ σ'.
Proof. unfold same_server, same_directory. by intros ->. Qed.

Lemma same_server_flag σ σ' : same_server σ σ' → same_flag σ σ'.
Proof. unfold same_server, same_flag. by intros ->. Qed.

Lemma same_link_flag σ σ' : same_link σ σ' → same_flag σ σ'.
Proof. by intros (_ & _ & ? & _). Qed.

(** The calls to the collaborators, under any relation that holds between
    two states with the same object. *)
Ltac collaborators weaken :=
  first
    [ apply (keeps_weaken same_server _ _ weaken), api_requester_do_server
    | apply (keeps_weaken same_server _ _ weaken), reply_json_server
    | apply (keeps_weaken same_server _ _ weaken), wsclient_connect_server
    | apply (keeps_weaken same_server _ _ weaken), proxy_settings_server
    | apply (keeps_weaken same_server _ _ weaken), dumps_server
    | apply (keeps_weaken same_server _ _ weaken), websocket_send_server ].

Lemma _connect_slack_websocket_directory (ws_url : pyval) :
  keeps same_directory (_connect_slack_websocket ws_url).
Proof.
  unfold _connect_slack_websocket.
  keeps_with ltac:(collaborators same_server_directory).
  destruct a as [[? ?] ?].
  keeps_with ltac:(collaborators same_server_directory).
  case_match; [by intros [srv w] | keeps_steps].
Qed.

Lemma _connect_slack_websocket_flag (ws_url : pyval) :
  keeps same_flag (_connect_slack_websocket ws_url).
Proof.
  unfold _connect_slack_websocket.
  keeps_with ltac:(collaborators same_server_flag).
  destruct a as [[? ?] ?].
  keeps_with ltac:(collaborators same_server_flag).
  case_match; [by intros [srv w] | keeps_steps].
Qed.

Lemma rtm_connect_directory (timeout : pyval) (use_rtm_start : bool) (kwargs : dict) :
  keeps same_directory (rtm_connect true timeout use_rtm_start kwargs).
Proof.
  unfold rtm_connect, connect_slack_websocket.
  keeps_with ltac:(collaborators same_server_directory).
  case_match; keeps_with ltac:(collaborators same_server_directory).
  case_match;
    keeps_with ltac:(first [ apply _connect_slack_websocket_directory
                           | collaborators same_server_directory ]).
  by intros [s w].
Qed.

Lemma rtm_connect_flag (reconnect : bool) (timeout : pyval) (use_rtm_start : bool)
    (kwargs : dict) :
  keeps same_flag (rtm_connect reconnect timeout use_rtm_start kwargs).
Proof.
  unfold rtm_connect, connect_slack_websocket.
  keeps_with ltac:(collaborators same_server_flag).
  case_match; keeps_with ltac:(collaborators same_server_flag).
  case_match;
    keeps_with ltac:(first [ apply _connect_slack_websocket_flag
                           | collaborators same_server_flag ]).
  - by intros [s w].
  - case_match; [| keeps_steps].
    apply (keeps_weaken same_link _ _ same_link_flag), parse_slack_login_data_link.
Qed.

(** ** The handshake *)

Lemma proxy_settings_run (s : Server) (w : World) :
  proxy_settings (s, w) =
    match proxies s ≫= (.!! "http") with
    | Some url =>
        match parse_url w url with
        | inl parts =>
            (Ret (opt_str (host parts), opt_int (port parts), split_auth (auth parts)),
             (s, w))
        | inr e => (Raise e, (s, w))
        end
    | None => (Ret (PNone, PNone, PNone), (s, w))
    end.
Proof.
  unfold proxy_settings, mbind at 1, St_bind, st_bind, self, gets. simpl.
  destruct (proxies s ≫= (.!! "http")) as [url |]; [| done].
  unfold mbind, call_parse_url. simpl.
  by destruct (parse_url w url).
Qed.

Lemma _connect_slack_websocket_run (ws_url : pyval) (s : Server) (w : World) :
  proxy_readable s w →
  _connect_slack_websocket ws_url (s, w) =
    (r ← wsclient_connect ws_url (extra_headers s w);
     match r with
     | inl ws => assign (set_websocket (Some ws))
     | inr msg => raise (SlackConnectionError (Some msg))
     end) (s, w).
Proof.
  intros Hp. unfold _connect_slack_websocket, extra_headers.
  unfold mbind at 1, St_bind, st_bind at 1. rewrite proxy_settings_run.
  unfold proxy_readable in Hp.
  destruct (proxies s ≫= (.!! "http")) as [url |]; [| done].
  destruct (Hp url eq_refl) as [parts Hparts]. by rewrite Hparts.
Qed.

Section handshake.
Variables (reconnect : bool) (timeout : pyval) (use_rtm_start : bool) (kwargs : dict).
Variables (s : Server) (w : World).
Variables (reply : Reply) (rest : list (Reply + exn)) (snapshot : dict).

(** The API request is answered, with status 200 and a JSON object. *)
Hypothesis Hreply : api_replies w = inl reply :: rest.
Hypothesis Hstatus : status_code reply = 200.
Hypothesis Hjson : json reply = Some (PDict snapshot).

Lemma rtm_connect_refused (ok : pyval) :
  dict_get "ok" snapshot = Some ok → truthy ok = false →
  rtm_connect reconnect timeout use_rtm_start kwargs (s, w)
  = (Raise SlackLoginError, (s, answered timeout use_rtm_start kwargs s w rest)).
Proof.
  intros Hok Hfalse. unfold rtm_connect, mbind, St_bind, st_bind, self, gets,
    api_requester_do, reply_json. simpl.
  rewrite Hreply. simpl. rewrite Hstatus, Hjson. simpl.
  rewrite Hok. simpl. by rewrite Hfalse.
Qed.

Lemma rtm_connect_accepted (ok url : pyval) :
  dict_get "ok" snapshot = Some ok → truthy ok = true →
  dict_get "url" snapshot = Some url →
  rtm_connect reconnect timeout use_rtm_start kwargs (s, w)
  = (connect_slack_websocket url;;
     if negb reconnect then parse_slack_login_data (PDict snapshot) use_rtm_start
     else mret ()) (set_ws_url url s, answered timeout use_rtm_start kwargs s w rest).
Proof.
  intros Hok Htrue Hurl. unfold rtm_connect.
  unfold mbind at 1 2 3 4 5, St_bind, st_bind at 1 2 3 4 5, self, gets,
    api_requester_do, reply_json. simpl.
  rewrite Hreply. simpl. rewrite Hstatus, Hjson. simpl.
  rewrite Hok. simpl. rewrite Htrue, Hurl. simpl.
  unfold mbind at 1 2, St_bind, st_bind at 1 2, assign, modify. by simpl.
Qed.
End handshake.

(** ** Connecting *)

Lemma wsclient_connect_opens (url : pyval) (headers : dict) (s : Server) (w : World)
    (more : list (unit + string)) :
  ws_connects w = inl () :: more →
  wsclient_connect url headers (s, w)
  = (Ret (inl (ws_opened w)),
     (s, set_ws_opened (S (ws_opened w)) (set_ws_connects more (log (WsConnect url headers) w)))).
Proof. intros H. unfold wsclient_connect. simpl. by rewrite H. Qed.

Lemma wsclient_connect_fails (url : pyval) (headers : dict) (s : Server) (w : World)
    (msg : string) (more : list (unit + string)) :
  ws_connects w = inr msg :: more →
  wsclient_connect url headers (s, w)
  = (Ret (inr msg), (s, set_ws_connects more (log (WsConnect url headers) w))).
Proof. intros H. unfold wsclient_connect. simpl. by rewrite H. Qed.

Lemma _connect_slack_websocket_opens (url : pyval) (s : Server) (w : World)
    (more : list (unit + string)) :
  proxy_readable s w →
  ws_connects w = inl () :: more →
  _connect_slack_websocket url (s, w)
  = (Ret (),
     (set_websocket (Some (ws_opened w)) s,
      set_ws_opened (S (ws_opened w))
        (set_ws_connects more (log (WsConnect url (extra_headers s w)) w)))).
Proof.
  intros Hproxy Hopen. rewrite _connect_slack_websocket_run by exact Hproxy.
  unfold mbind, St_bind, st_bind.
  by rewrite (wsclient_connect_opens _ _ _ _ more Hopen).
Qed.

Lemma _connect_slack_websocket_fails (url : pyval) (s : Server) (w : World)
    (msg : string) (more : list (unit + string)) :
  proxy_readable s w →
  ws_connects w = inr msg :: more →
  _connect_slack_websocket url (s, w)
  = (Raise (SlackConnectionError (Some msg)),
     (s, set_ws_connects more (log (WsConnect url (extra_headers s w)) w))).
Proof.
  intros Hproxy Hopen. rewrite _connect_slack_websocket_run by exact Hproxy.
  unfold mbind, St_bind, st_bind.
  by rewrite (wsclient_connect_fails _ _ _ _ msg more Hopen).
Qed.

(** C3: a handshake answered with status 200 and a false [ok] makes
    [rtm_connect] raise [SlackLoginError] and leaves every field of the
    object as it was; in particular [connected] stays false and [ws_url]
    stays [None] where they were so before the call. *)
Theorem rtm_connect_ok_false (reconnect : bool) (timeout : pyval) (use_rtm_start : bool)
    (kwargs : dict) (s : Server) (w : World) (reply : Reply) (rest : list (Reply + exn))
    (snapshot : dict) (ok : pyval) :
  api_replies w = inl reply :: rest →
  status_code reply = 200 →
  json reply = Some (PDict snapshot) →
  dict_get "ok" snapshot = Some ok →
  truthy ok = false →
  let r := rtm_connect reconnect timeout use_rtm_start kwargs (s, w) in
  r.1 = Raise SlackLoginError ∧ r.2.1 = s
  ∧ (connected s = false → connected r.2.1 = false)
  ∧ (ws_url s = PNone → ws_url r.2.1 = PNone).
Proof.
  intros Hreply Hstatus Hjson Hok Hfalse r. subst r.
  rewrite (rtm_connect_refused reconnect timeout use_rtm_start kwargs s w
             reply rest snapshot Hreply Hstatus Hjson ok Hok Hfalse).
  by simpl.
Qed.

(** C2, as the code has it: after a connect whose request is answered with
    status 200 and a true [ok], and whose websocket opens, [ws_url] is the
    [url] of the answer and [websocket] is the connection just opened;
    [connected] is what it was before the call, which no statement of
    [rtm_connect] assigns.  A reconnect then returns normally. *)
Theorem rtm_connect_success (reconnect : bool) (timeout : pyval) (use_rtm_start : bool)
    (kwargs : dict) (s : Server) (w : World) (reply : Reply) (rest : list (Reply + exn))
    (snapshot : dict) (ok url : pyval) (more : list (unit + string)) :
  api_replies w = inl reply :: rest →
  status_code reply = 200 →
  json reply = Some (PDict snapshot) →
  dict_get "ok" snapshot = Some ok →
  truthy ok = true →
  dict_get "url" snapshot = Some url →
  proxy_readable s w →
  ws_connects w = inl () :: more →
  let r := rtm_connect reconnect timeout use_rtm_start kwargs (s, w) in
  ws_url r.2.1 = url ∧ websocket r.2.1 = Some (ws_opened w)
  ∧ connected r.2.1 = connected s
  ∧ (reconnect = true → r.1 = Ret ()).
Proof.
  intros Hreply Hstatus Hjson Hok Htrue Hurl Hproxy Hopen r. subst r.
  rewrite (rtm_connect_accepted reconnect timeout use_rtm_start kwargs s w
             reply rest snapshot Hreply Hstatus Hjson ok url Hok Htrue Hurl).
  unfold connect_slack_websocket, mbind, St_bind, st_bind.
  rewrite (_connect_slack_websocket_opens url (set_ws_url url s)
             (answered timeout use_rtm_start kwargs s w rest) more Hproxy Hopen).
  destruct reconnect; simpl; [done |].
  match goal with
  | |- context [parse_slack_login_data ?d ?u ?σ] =>
      pose proof (parse_slack_login_data_link d u σ) as (_ & Hws & Hc & Hu & _ & _)
  end.
  simpl in *. rewrite Hws, Hc, Hu. by repeat split.
Qed.

(** C10: [rtm_connect] assigns [ws_url] before it opens the websocket.  When
    the handshake is accepted and the websocket then fails to open, the call
    raises [SlackConnectionError] with [ws_url] already set to the new URL,
    every other field of the object being as before. *)
Theorem rtm_connect_open_fails (reconnect : bool) (timeout : pyval) (use_rtm_start : bool)
    (kwargs : dict) (s : Server) (w : World) (reply : Reply) (rest : list (Reply + exn))
    (snapshot : dict) (ok url : pyval) (msg : string) (more : list (unit + string)) :
  api_replies w = inl reply :: rest →
  status_code reply = 200 →
  json reply = Some (PDict snapshot) →
  dict_get "ok" snapshot = Some ok →
  truthy ok = true →
  dict_get "url" snapshot = Some url →
  proxy_readable s w →
  ws_connects w = inr msg :: more →
  let r := rtm_connect reconnect timeout use_rtm_start kwargs (s, w) in
  r.1 = Raise (SlackConnectionError (Some msg))
  ∧ r.2.1 = set_ws_url url s
  ∧ ws_url r.2.1 = url
  ∧ websocket r.2.1 = websocket s.
Proof.
  intros Hreply Hstatus Hjson Hok Htrue Hurl Hproxy Hopen r. subst r.
  rewrite (rtm_connect_accepted reconnect timeout use_rtm_start kwargs s w
             reply rest snapshot Hreply Hstatus Hjson ok url Hok Htrue Hurl).
  unfold connect_slack_websocket, mbind, St_bind, st_bind.
  by rewrite (_connect_slack_websocket_fails url (set_ws_url url s)
                (answered timeout use_rtm_start kwargs s w rest) msg more Hproxy Hopen).
Qed.

(** C2, as stated, fails: a first connect that succeeds, directory parsed
    and all, returns with [ws_url] set and the websocket open, and with
    [connected] still false. *)
Lemma connect_leaves_connected_false :
  let r := init "xoxb-1" true None welcoming in
  r.1 = Ret () ∧ ws_url r.2.1 = PStr "wss://example.test/ws"
  ∧ websocket r.2.1 = Some 0%nat ∧ connected r.2.1 = false.
Proof. vm_compute. done. Qed.

Lemma rtm_connect_success_witness :
  let r := rtm_connect false PNone true [] (new "xoxb-1" None, welcoming) in
  ws_url r.2.1 = PStr "wss://example.test/ws" ∧ websocket r.2.1 = Some 0%nat
  ∧ connected r.2.1 = false
  ∧ (false = true → r.1 = Ret ()).
Proof.
  apply (rtm_connect_success false PNone true [] (new "xoxb-1" None) welcoming
           (sample_reply sample_snapshot) [] sample_snapshot (PBool true)
           (PStr "wss://example.test/ws") []); try reflexivity.
  intros url H. discriminate H.
Defined.

Lemma rtm_connect_ok_false_witness :
  let r := rtm_connect false PNone true [] (new "xoxb-1" None, refusing) in
  r.1 = Raise SlackLoginError ∧ r.2.1 = new "xoxb-1" None
  ∧ (false = false → connected r.2.1 = false)
  ∧ (PNone = PNone → ws_url r.2.1 = PNone).
Proof.
  apply (rtm_connect_ok_false false PNone true [] (new "xoxb-1" None) refusing
           (sample_reply [("ok", PBool false)]) [] [("ok", PBool false)] (PBool false));
    reflexivity.
Defined.

Lemma rtm_connect_open_fails_witness :
  let r := rtm_connect true PNone true [] (new "xoxb-1" None, unreachable) in
  r.1 = Raise (SlackConnectionError (Some "refused"))
  ∧ r.2.1 = set_ws_url (PStr "wss://example.test/ws") (new "xoxb-1" None)
  ∧ ws_url r.2.1 = PStr "wss://example.test/ws"
  ∧ websocket r.2.1 = websocket (new "xoxb-1" None).
Proof.
  apply (rtm_connect_open_fails true PNone true [] (new "xoxb-1" None) unreachable
           (sample_reply sample_snapshot) [] sample_snapshot (PBool true)
           (PStr "wss://example.test/ws") "refused" []); try reflexivity.
  intros url H. discriminate H.
Defined.

(** ** Receiving *)

(** A turn that goes round again has taken one answer from the script. *)
Lemma read_turn_shrinks (data data' : string) (st st' : option string * (Server * World)) :
  read_turn data st = (Ret (Some data'), st') →
  S (length (ws_recvs st'.2.2)) = length (ws_recvs st.2.2).
Proof.
  destruct st as [readop [s w]]. unfold read_turn, lift, websocket_recv. simpl.
  destruct (websocket s) as [ws |]; [| done]. simpl.
  destruct (ws_recvs w) as [| [frame | e] script]; simpl; try done.
  - unfold mbind, St_bind, st_bind, set_result. simpl.
    destruct readop; [done |]. by intros [= _ <-].
  - destruct e; try done. by case_bool_decide.
Qed.

(** More turns than the script has answers change nothing, so the bound of
    [_websocket_safe_read] is never what ends the loop. *)
Lemma read_loop_turns (n : nat) (data : string) (st : option string * (Server * World)) :
  (length (ws_recvs st.2.2) < n)%nat →
  read_loop (S n) data st = read_loop n data st.
Proof.
  revert data st. induction n as [| n IH]; intros data st Hn; [lia |].
  change (read_loop (S (S n)) data st)
    with ((r ← read_turn data;
           match r with
           | Some data' => read_loop (S n) data'
           | None => mret ()
           end) st).
  change (read_loop (S n) data st)
    with ((r ← read_turn data;
           match r with
           | Some data' => read_loop n data'
           | None => mret ()
           end) st).
  unfold mbind, St_bind, st_bind.
  destruct (read_turn data st) as [[[data' |] | e |] st'] eqn:Hturn; try done.
  apply read_turn_shrinks in Hturn. apply IH. lia.
Qed.

(** With no frame to read the non-blocking read does not return: it waits
    when [recv] waits, and when [recv] reports that no data has come yet the
    coroutine returns before [readop] has a result, so that
    [readop.result()] raises. *)
Lemma nonblocking_read_without_frame (s : Server) (w : World) (ws : nat) :
  websocket s = Some ws →
  (ws_recvs w = [] → (websocket_safe_read false (s, w)).1 = Hang)
  ∧ (∀ rest, ws_recvs w = inr (SSLError (Some 2)) :: rest →
       (websocket_safe_read false (s, w)).1 = Raise InvalidStateError).
Proof.
  intros Hws. destruct w as [api opens sends recvs dumps_of parse_of opened events].
  destruct s as [tok name dom snap sock usrs chans flag url prox].
  simpl in Hws. subst sock. simpl.
  split; [intros -> | intros rest ->]; reflexivity.
Qed.

(** C1, where the code parts from it: on a connection with no frame
    available, [websocket_safe_read(blocking=False)] does not return the
    empty string.  When [recv] reports that no data has come yet the call
    raises [InvalidStateError], and when [recv] waits the call waits. *)
Theorem nonblocking_read_no_frames :
  (websocket_safe_read false (listening, no_data_yet)).1 = Raise InvalidStateError
  ∧ (websocket_safe_read false (listening, set_ws_opened 1 silent)).1 = Hang.
Proof. split; reflexivity. Qed.

(** ** Sending *)

Global Instance same_api_calls_preorder : PreOrder same_api_calls.
Proof. split; [by intros σ |]. intros a b c; unfold same_api_calls; congruence. Qed.

Lemma same_link_api_calls σ σ' : same_link σ σ' → same_api_calls σ σ'.
Proof. intros (_ & _ & _ & _ & _ & Hw). unfold same_api_calls. by rewrite Hw. Qed.

Lemma api_calls_log (e : Event) (w : World) :
  api_calls (log e w) = (if is_api_call e then S (api_calls w) else api_calls w).
Proof.
  unfold api_calls, log. simpl. rewrite List.filter_app, length_app. simpl.
  destruct (is_api_call e); simpl; lia.
Qed.

Ltac count_api_calls :=
  unfold api_calls; simpl; rewrite ?List.filter_app, ?length_app; simpl; lia.

Lemma answer_api_calls {A} (script : list (A + exn)) rest (s : Server) (w : World) :
  (∀ l w', api_calls (rest l w') = api_calls w') →
  api_calls (answer script rest s w).2.2 = api_calls w.
Proof. intros Hrest. destruct script as [| [a | e] script']; simpl; auto. Qed.

Lemma assign_api_calls (f : Server → Server) : keeps same_api_calls (assign f).
Proof. by intros [s w]. Qed.

Lemma reply_json_api_calls (reply : Reply) : keeps same_api_calls (reply_json reply).
Proof. unfold reply_json. by destruct (json reply); intros σ. Qed.

Lemma dumps_api_calls (data : pyval) : keeps same_api_calls (dumps data).
Proof. intros [s w]. unfold dumps, same_api_calls. simpl. by destruct (json_dumps w data). Qed.

Lemma proxy_settings_api_calls : keeps same_api_calls proxy_settings.
Proof.
  intros [s w]. rewrite proxy_settings_run.
  destruct (proxies s ≫= (.!! "http")) as [url |]; [| done].
  by destruct (parse_url w url).
Qed.

Lemma wsclient_connect_api_calls (url : pyval) (headers : dict) :
  keeps same_api_calls (wsclient_connect url headers).
Proof.
  intros [s w]. unfold wsclient_connect, same_api_calls. simpl.
  destruct (ws_connects w) as [| [[] | msg] script']; simpl; count_api_calls.
Qed.

Lemma websocket_send_api_calls (data : string) : keeps same_api_calls (websocket_send data).
Proof.
  intros [s w]. unfold websocket_send, same_api_calls. simpl.
  destruct (websocket s) as [ws |]; [| done].
  rewrite answer_api_calls by done. count_api_calls.
Qed.

Lemma _connect_slack_websocket_api_calls (ws_url : pyval) :
  keeps same_api_calls (_connect_slack_websocket ws_url).
Proof.
  unfold _connect_slack_websocket.
  keeps_with ltac:(first [apply proxy_settings_api_calls]).
  destruct a as [[? ?] ?].
  keeps_with ltac:(first [apply wsclient_connect_api_calls]).
  case_match; [apply assign_api_calls | keeps_steps].
Qed.

(** The attempt to send makes no request to the API. *)
Lemma send_attempt_api_calls (data : pyval) : keeps same_api_calls (send_attempt data).
Proof.
  unfold send_attempt.
  keeps_with ltac:(first [apply dumps_api_calls | apply websocket_send_api_calls]).
Qed.

(** Whatever its outcome, [rtm_connect] makes exactly one request. *)
Lemma rtm_connect_api_calls (reconnect : bool) (timeout : pyval) (use_rtm_start : bool)
    (kwargs : dict) (σ : Server * World) :
  api_calls (rtm_connect reconnect timeout use_rtm_start kwargs σ).2.2 = S (api_calls σ.2).
Proof.
  destruct σ as [s w]. unfold rtm_connect.
  unfold mbind at 1 2, St_bind, st_bind at 1 2, self, gets, api_requester_do. simpl.
  destruct (api_replies w) as [| [reply | e] script]; simpl;
    try count_api_calls.
  match goal with
  | |- api_calls (?k ?σ1).2.2 = _ =>
      assert (Hk : keeps same_api_calls k); [| rewrite (Hk σ1)]
  end.
  - case_match; [keeps_steps |].
    keeps_with ltac:(first [apply reply_json_api_calls]).
    case_match; [| keeps_steps].
    keeps_with ltac:(first [ apply assign_api_calls
                           | apply _connect_slack_websocket_api_calls ]).
    case_match; [| keeps_steps].
    apply (keeps_weaken same_link _ _ same_link_api_calls), parse_slack_login_data_link.
  - count_api_calls.
Qed.

(** The attempt to send leaves the object as it is. *)
Lemma send_attempt_server (data : pyval) : keeps same_server (send_attempt data).
Proof.
  unfold send_attempt.
  keeps_with ltac:(first [apply dumps_server | apply websocket_send_server]).
Qed.

(** C4: when sending fails, [send_to_websocket] runs [rtm_connect] with
    [reconnect=True] once, in the state the failed attempt left, and ends as
    that call ends: the failure of the send is not raised, and an exception
    of the reconnect reaches the caller.  One request to the API is made in
    all, the one of that reconnect. *)
Theorem send_failure_reconnects_once (data : pyval) (s : Server) (w : World)
    (e : exn) (σ1 : Server * World) :
  send_attempt data (s, w) = (Raise e, σ1) →
  send_to_websocket data (s, w) = rtm_connect true PNone true [] σ1
  ∧ σ1.1 = s
  ∧ api_calls (send_to_websocket data (s, w)).2.2 = S (api_calls w)
  ∧ (∀ e', (rtm_connect true PNone true [] σ1).1 = Raise e' →
       (send_to_websocket data (s, w)).1 = Raise e')
  ∧ ((rtm_connect true PNone true [] σ1).1 = Ret () →
       (send_to_websocket data (s, w)).1 = Ret ()).
Proof.
  intros Hsend.
  assert (Hrun : send_to_websocket data (s, w) = rtm_connect true PNone true [] σ1)
    by (unfold send_to_websocket, try_except; by rewrite Hsend).
  pose proof (send_attempt_server data (s, w)) as Hs.
  pose proof (send_attempt_api_calls data (s, w)) as Hn.
  rewrite Hsend in Hs, Hn. unfold same_server, same_api_calls in *. simpl in *.
  rewrite Hrun, rtm_connect_api_calls, Hn. by repeat split.
Qed.

Lemma send_failure_reconnects_once_witness :
  let data := PDict [("type", PStr "ping")] in
  let σ1 := (send_attempt data (listening, broken)).2 in
  send_to_websocket data (listening, broken) = rtm_connect true PNone true [] σ1
  ∧ σ1.1 = listening
  ∧ api_calls (send_to_websocket data (listening, broken)).2.2 = S (api_calls broken)
  ∧ (∀ e', (rtm_connect true PNone true [] σ1).1 = Raise e' →
       (send_to_websocket data (listening, broken)).1 = Raise e')
  ∧ ((rtm_connect true PNone true [] σ1).1 = Ret () →
       (send_to_websocket data (listening, broken)).1 = Ret ()).
Proof.
  apply (send_failure_reconnects_once (PDict [("type", PStr "ping")]) listening broken
           (CollaboratorError "broken pipe")).
  reflexivity.
Defined.

(** ** The directory *)

(** C5: a reconnect, [rtm_connect] with [reconnect=True], leaves [users] and
    [channels] as they are, whatever the handshake answers and however the
    call ends; the snapshot of an [rtm.start] answer is not parsed. *)
Theorem reconnect_keeps_directory (timeout : pyval) (use_rtm_start : bool)
    (kwargs : dict) (s : Server) (w : World) :
  let r := rtm_connect true timeout use_rtm_start kwargs (s, w) in
  users r.2.1 = users s ∧ channels r.2.1 = channels s.
Proof. exact (rtm_connect_directory timeout use_rtm_start kwargs (s, w)). Qed.

(** An identifier held by a channel of the list is found. *)
Lemma find_known (key : pyval) (l : list Channel.t) (c : Channel.t) :
  c ∈ l → Channel.id c = key →
  ∃ c0, find key l = Some c0 ∧ Channel.id c0 = key.
Proof.
  intros Hc Hid. unfold find.
  destruct (List.find (λ c, pyval_eqb (Channel.id c) key) l) as [c0 |] eqn:Hfind.
  - exists c0. split; [done |]. apply find_some in Hfind as [_ Heq].
    by apply pyval_eqb_eq.
  - apply list_elem_of_In in Hc.
    pose proof (find_none _ _ Hfind c Hc) as Hne. simpl in Hne.
    rewrite Hid, pyval_eqb_refl in Hne. discriminate Hne.
Qed.

(** C6: [attach_channel] with an identifier that a channel of the list
    already has returns without touching the object: the list is the same,
    with the name and the members first stored for that identifier and with
    no entry added. *)
Theorem attach_channel_known (name channel_id members : pyval) (s : Server) (w : World)
    (c : Channel.t) :
  c ∈ channels s →
  Channel.id c = channel_id →
  attach_channel name channel_id members (s, w) = (Ret (), (s, w))
  ∧ ∃ c0, find channel_id (channels s) = Some c0 ∧ Channel.id c0 = channel_id.
Proof.
  intros Hc Hid. destruct (find_known channel_id (channels s) c Hc Hid) as (c0 & Hfind & Hid0).
  split; [| by exists c0].
  unfold attach_channel, mbind, St_bind, st_bind, self, gets. simpl.
  by rewrite Hfind.
Qed.

Lemma attach_channel_known_witness :
  attach_channel (PStr "renamed") (PStr "C1") PNone (populated, silent)
  = (Ret (), (populated, silent))
  ∧ ∃ c0, find (PStr "C1") (channels populated) = Some c0 ∧ Channel.id c0 = PStr "C1".
Proof.
  apply (attach_channel_known (PStr "renamed") (PStr "C1") PNone populated silent general).
  - vm_compute. left.
  - reflexivity.
Defined.

(** C7: [attach_user] with an identifier that is already a key of [users]
    puts the new user in the place of the old one: the entry under that key
    is the user made of the new name, real name and timezone, the other
    entries are as before, and there are as many as before. *)
Theorem attach_user_overwrites (name user_id real_name tz : pyval) (s : Server)
    (w : World) (k : pykey) (old : User.t) :
  as_key user_id = Some k →
  users s !! k = Some old →
  let r := attach_user name user_id real_name tz (s, w) in
  r.1 = Ret ()
  ∧ users r.2.1 !! k = Some (User.Build name user_id real_name tz)
  ∧ (∀ k', k' ≠ k → users r.2.1 !! k' = users s !! k')
  ∧ size (users r.2.1) = size (users s)
  ∧ channels r.2.1 = channels s ∧ r.2.2 = w.
Proof.
  intros Hk Hold r. subst r. unfold attach_user. rewrite Hk. simpl.
  split; [done |]. split; [apply lookup_insert_eq |].
  split; [by intros k' Hne; apply lookup_insert_ne |].
  split; [| done]. apply map_size_insert_Some. by exists old.
Qed.

Lemma attach_user_overwrites_witness :
  let r := attach_user (PStr "b") (PStr "U1") (PStr "B") (PStr "unknown")
             (populated, silent) in
  r.1 = Ret ()
  ∧ users r.2.1 !! KStr "U1"
    = Some (User.Build (PStr "b") (PStr "U1") (PStr "B") (PStr "unknown"))
  ∧ (∀ k', k' ≠ KStr "U1" → users r.2.1 !! k' = users populated !! k')
  ∧ size (users r.2.1) = size (users populated)
  ∧ channels r.2.1 = channels populated ∧ r.2.2 = silent.
Proof.
  apply (attach_user_overwrites (PStr "b") (PStr "U1") (PStr "B") (PStr "unknown")
           populated silent (KStr "U1") ann); reflexivity.
Defined.

(** ** Parsing the snapshot *)

Lemma dict_get_set_eq (k : string) (v : pyval) (d : dict) :
  dict_get k (dict_set k v d) = Some v.
Proof.
  induction d as [| [k' v'] d IH]; simpl; [by rewrite String.eqb_refl |].
  destruct (String.eqb k k') eqn:Hk; simpl; [by rewrite String.eqb_refl |].
  by rewrite Hk.
Qed.

Lemma dict_get_set_ne (k k' : string) (v : pyval) (d : dict) :
  String.eqb k k' = false → dict_get k (dict_set k' v d) = dict_get k d.
Proof.
  intros Hne. induction d as [| [k0 v0] d IH]; simpl; [by rewrite Hne |].
  destruct (String.eqb k' k0) eqn:Hk; simpl.
  - apply String.eqb_eq in Hk as <-. by rewrite Hne.
  - by rewrite IH.
Qed.

(** Reads the entries of a record through the assignments made to it. *)
Ltac dict_steps :=
  repeat (simpl;
          first [ rewrite dict_get_set_eq
                | rewrite dict_get_set_ne by done
                | match goal with H : dict_get _ _ = _ |- _ => rewrite H end ]).

(** On a record with an [id], the loop body of [parse_channel_data] fills
    the record in and attaches the channel it describes. *)
Lemma parse_channel_run (d : dict) (id : pyval) (σ : Server * World) :
  dict_get "id" d = Some id →
  parse_channel (PDict d, σ)
  = lift (attach_channel (default id (dict_get "name" d)) id
            (default (PList []) (dict_get "members" d)))
      (PDict (filled_channel id d), σ).
Proof.
  intros Hid. unfold parse_channel, filled_channel, contains, item, setitem, dict_mem.
  unfold mbind, St_bind, st_bind. simpl.
  destruct (dict_get "name" d) as [name |] eqn:Hname;
    destruct (dict_get "members" d) as [members |] eqn:Hmembers;
    dict_steps; reflexivity.
Qed.

(** On a record with an [id] and a [name], the loop body of
    [parse_user_data] fills the record in and attaches the user. *)
Lemma parse_user_run (d : dict) (id name : pyval) (σ : Server * World) :
  dict_get "id" d = Some id →
  dict_get "name" d = Some name →
  parse_user (PDict d, σ)
  = lift (attach_user name id (default name (dict_get "real_name" d))
            (default (PStr "unknown") (dict_get "tz" d)))
      (PDict (filled_user name d), σ).
Proof.
  intros Hid Hname. unfold parse_user, filled_user, contains, item, setitem, dict_mem.
  unfold mbind, St_bind, st_bind. simpl.
  destruct (dict_get "tz" d) as [tz |] eqn:Htz;
    destruct (dict_get "real_name" d) as [real |] eqn:Hreal;
    dict_steps; reflexivity.
Qed.

Lemma attach_channel_returns (name id members : pyval) (σ : Server * World) :
  (attach_channel name id members σ).1 = Ret ().
Proof.
  destruct σ as [s w]. unfold attach_channel, mbind, St_bind, st_bind, self, gets. simpl.
  by destruct (find id (channels s)).
Qed.

Lemma for_in_returns {σ} (body : St (pyval * σ) unit) (P : pyval → Prop)
    (l : list pyval) (s : σ) :
  (∀ x s, P x → (body (x, s)).1 = Ret ()) →
  Forall P l → (for_in body l s).1 = Ret ().
Proof.
  intros Hbody Hl. revert s. induction Hl as [| x l Hx _ IH]; intros s; simpl; [done |].
  specialize (Hbody x s Hx). destruct (body (x, s)) as [[[] | e |] [x' s']]; try done.
  specialize (IH s'). by destruct (for_in body l s') as [r [l' s'']].
Qed.

Lemma parse_channel_data_returns (l : list pyval) (σ : Server * World) :
  Forall channel_record l → (parse_channel_data (PList l, σ)).1 = Ret ().
Proof.
  intros Hl. unfold parse_channel_data, for_each. simpl.
  pose proof (for_in_returns parse_channel channel_record l σ) as H.
  destruct (for_in parse_channel l σ) as [r [l' σ']]. simpl in *. apply H; [| done].
  intros x σ0 (d & id & -> & Hid). rewrite (parse_channel_run d id σ0 Hid).
  unfold lift. simpl.
  pose proof (attach_channel_returns (default id (dict_get "name" d)) id
                (default (PList []) (dict_get "members" d)) σ0) as Hr.
  by destruct (attach_channel _ _ _ σ0).
Qed.

Lemma parse_user_data_returns (l : list pyval) (σ : Server * World) :
  Forall user_record l → (parse_user_data (PList l, σ)).1 = Ret ().
Proof.
  intros Hl. unfold parse_user_data, for_each. simpl.
  pose proof (for_in_returns parse_user user_record l σ) as H.
  destruct (for_in parse_user l σ) as [r [l' σ']]. simpl in *. apply H; [| done].
  intros x σ0 (d & id & name & k & -> & Hid & Hk & Hname).
  rewrite (parse_user_run d id name σ0 Hid Hname).
  unfold lift, attach_user. simpl. by rewrite Hk.
Qed.

(** One record with an identifier that is not known yet: the channel it
    describes goes last in the list. *)
Lemma parse_channel_data_one (d : dict) (id : pyval) (s : Server) (w : World) :
  dict_get "id" d = Some id →
  find id (channels s) = None →
  parse_channel_data (PList [PDict d], (s, w))
  = (Ret (),
     (PList [PDict (filled_channel id d)],
      (set_channels
         (channels s
          ++ [Channel.Build (default id (dict_get "name" d)) id
                (let members := default (PList []) (dict_get "members" d) in
                 if is_none members then PList [] else members)]) s, w))).
Proof.
  intros Hid Hfind. unfold parse_channel_data, for_each. simpl.
  rewrite (parse_channel_run d id (s, w) Hid).
  unfold lift, attach_channel, mbind, St_bind, st_bind, self, gets. simpl.
  by rewrite Hfind.
Qed.

Lemma parse_user_data_one (d : dict) (id name : pyval) (k : pykey) (s : Server) (w : World) :
  dict_get "id" d = Some id →
  as_key id = Some k →
  dict_get "name" d = Some name →
  parse_user_data (PList [PDict d], (s, w))
  = (Ret (),
     (PList [PDict (filled_user name d)],
      (set_users
         (<[k := User.Build name id (default name (dict_get "real_name" d))
                   (default (PStr "unknown") (dict_get "tz" d))]> (users s)) s, w))).
Proof.
  intros Hid Hk Hname. unfold parse_user_data, for_each. simpl.
  rewrite (parse_user_run d id name (s, w) Hid Hname).
  unfold lift, attach_user. simpl. by rewrite Hk.
Qed.

(** C8: parsing fills in the optional fields a snapshot record lacks.  A
    channel record without [name] gives a channel named by its [id], one
    without [members] a channel with the empty list of members; a user
    record without [tz] gives a user with timezone ["unknown"], one without
    [real_name] a user whose real name is its [name]; the record itself
    gets the same entry.  And parsing a list of records that have their
    required fields returns normally, whichever optional fields they lack. *)
Theorem snapshot_defaults :
  (∀ d id s w,
     dict_get "id" d = Some id → dict_get "name" d = None →
     find id (channels s) = None →
     ∃ d' c,
       parse_channel_data (PList [PDict d], (s, w))
       = (Ret (), (PList [PDict d'], (set_channels (channels s ++ [c]) s, w)))
       ∧ Channel.id c = id ∧ Channel.name c = id ∧ dict_get "name" d' = Some id)
  ∧ (∀ d id s w,
       dict_get "id" d = Some id → dict_get "members" d = None →
       find id (channels s) = None →
       ∃ d' c,
         parse_channel_data (PList [PDict d], (s, w))
         = (Ret (), (PList [PDict d'], (set_channels (channels s ++ [c]) s, w)))
         ∧ Channel.id c = id ∧ Channel.members c = PList []
         ∧ dict_get "members" d' = Some (PList []))
  ∧ (∀ d id name k s w,
       dict_get "id" d = Some id → as_key id = Some k →
       dict_get "name" d = Some name → dict_get "tz" d = None →
       ∃ d' u,
         parse_user_data (PList [PDict d], (s, w))
         = (Ret (), (PList [PDict d'], (set_users (<[k := u]> (users s)) s, w)))
         ∧ User.id u = id ∧ User.name u = name ∧ User.tz u = PStr "unknown"
         ∧ dict_get "tz" d' = Some (PStr "unknown"))
  ∧ (∀ d id name k s w,
       dict_get "id" d = Some id → as_key id = Some k →
       dict_get "name" d = Some name → dict_get "real_name" d = None →
       ∃ d' u,
         parse_user_data (PList [PDict d], (s, w))
         = (Ret (), (PList [PDict d'], (set_users (<[k := u]> (users s)) s, w)))
         ∧ User.id u = id ∧ User.name u = name ∧ User.real_name u = name
         ∧ dict_get "real_name" d' = Some name)
  ∧ (∀ l σ, Forall channel_record l → (parse_channel_data (PList l, σ)).1 = Ret ())
  ∧ (∀ l σ, Forall user_record l → (parse_user_data (PList l, σ)).1 = Ret ()).
Proof.
  repeat split.
  - intros d id s w Hid Hname Hfind. eexists _, _.
    split; [exact (parse_channel_data_one d id s w Hid Hfind) |].
    rewrite Hname. simpl. repeat split.
    unfold filled_channel, dict_mem. rewrite Hname.
    destruct (dict_get "members" (dict_set "name" id d)); by dict_steps.
  - intros d id s w Hid Hmembers Hfind. eexists _, _.
    split; [exact (parse_channel_data_one d id s w Hid Hfind) |].
    rewrite Hmembers. simpl. repeat split.
    unfold filled_channel, dict_mem.
    destruct (dict_get "name" d) eqn:Hname; by dict_steps.
  - intros d id name k s w Hid Hk Hname Htz. eexists _, _.
    split; [exact (parse_user_data_one d id name k s w Hid Hk Hname) |].
    rewrite Htz. simpl. repeat split.
    unfold filled_user, dict_mem. rewrite Htz.
    destruct (dict_get "real_name" (dict_set "tz" (PStr "unknown") d)); by dict_steps.
  - intros d id name k s w Hid Hk Hname Hreal. eexists _, _.
    split; [exact (parse_user_data_one d id name k s w Hid Hk Hname) |].
    rewrite Hreal. simpl. repeat split.
    unfold filled_user, dict_mem.
    destruct (dict_get "tz" d) eqn:Htz; by dict_steps.
  - intros l σ. apply parse_channel_data_returns.
  - intros l σ. apply parse_user_data_returns.
Qed.

Lemma snapshot_defaults_witness :
  (∃ d' c,
     parse_channel_data (PList [PDict [("id", PStr "C2")]], (populated, silent))
     = (Ret (), (PList [PDict d'],
                 (set_channels (channels populated ++ [c]) populated, silent)))
     ∧ Channel.id c = PStr "C2" ∧ Channel.name c = PStr "C2"
     ∧ dict_get "name" d' = Some (PStr "C2"))
  ∧ (∃ d' c,
       parse_channel_data (PList [PDict [("id", PStr "C2")]], (populated, silent))
       = (Ret (), (PList [PDict d'],
                   (set_channels (channels populated ++ [c]) populated, silent)))
       ∧ Channel.id c = PStr "C2" ∧ Channel.members c = PList []
       ∧ dict_get "members" d' = Some (PList []))
  ∧ (∃ d' u,
       parse_user_data
         (PList [PDict [("id", PStr "U2"); ("name", PStr "bob")]], (populated, silent))
       = (Ret (), (PList [PDict d'],
                   (set_users (<[KStr "U2" := u]> (users populated)) populated, silent)))
       ∧ User.id u = PStr "U2" ∧ User.name u = PStr "bob"
       ∧ User.tz u = PStr "unknown" ∧ dict_get "tz" d' = Some (PStr "unknown"))
  ∧ (∃ d' u,
       parse_user_data
         (PList [PDict [("id", PStr "U2"); ("name", PStr "bob")]], (populated, silent))
       = (Ret (), (PList [PDict d'],
                   (set_users (<[KStr "U2" := u]> (users populated)) populated, silent)))
       ∧ User.id u = PStr "U2" ∧ User.name u = PStr "bob"
       ∧ User.real_name u = PStr "bob" ∧ dict_get "real_name" d' = Some (PStr "bob"))
  ∧ (parse_channel_data (PList [PDict [("id", PStr "C2")]], (populated, silent))).1 = Ret ()
  ∧ (parse_user_data
       (PList [PDict [("id", PStr "U2"); ("name", PStr "bob")]], (populated, silent))).1
    = Ret ().
Proof.
  destruct snapshot_defaults as (Hname & Hmembers & Htz & Hreal & Hchannels & Husers).
  split; [apply Hname; reflexivity |].
  split; [apply Hmembers; reflexivity |].
  split; [apply (Htz _ _ (PStr "bob")); reflexivity |].
  split; [apply (Hreal _ _ (PStr "bob")); reflexivity |].
  split.
  - apply Hchannels. constructor; [| constructor].
    exists [("id", PStr "C2")], (PStr "C2"). split; reflexivity.
  - apply Husers. constructor; [| constructor].
    exists [("id", PStr "U2"); ("name", PStr "bob")], (PStr "U2"), (PStr "bob"), (KStr "U2").
    repeat split; reflexivity.
Defined.

(** ** Messages *)

(** A send on an open websocket that takes the frame: the text
    [json.dumps] makes of the frame goes to the websocket. *)
Lemma send_to_websocket_sent (frame : pyval) (s : Server) (w : World) (ws : nat)
    (txt : string) (rest : list (unit + exn)) :
  websocket s = Some ws →
  json_dumps w frame = inl txt →
  ws_sends w = inl () :: rest →
  send_to_websocket frame (s, w) = (Ret (), (s, set_ws_sends rest (log (WsSend ws txt) w))).
Proof.
  intros Hws Hdumps Hsends.
  unfold send_to_websocket, try_except, send_attempt, mbind, St_bind, st_bind,
    dumps, websocket_send. simpl.
  rewrite Hdumps. simpl. rewrite Hws. simpl. by rewrite Hsends.
Qed.

(** C9: with a thread and a true [reply_broadcast], [rtm_send_message] hands
    [send_to_websocket] the frame with [type], [channel], [text],
    [thread_ts] and [reply_broadcast], in this order; with [thread] left
    [None] it hands it the frame with [type], [channel] and [text] alone,
    whatever [reply_broadcast] is.  On an open websocket that takes the
    frame, what is sent is the text of that frame. *)
Theorem rtm_send_message_frame (channel message : pyval) :
  (∀ thread reply_broadcast,
     thread ≠ PNone → truthy reply_broadcast = true →
     let frame :=
       PDict [("type", PStr "message"); ("channel", channel); ("text", message);
              ("thread_ts", thread); ("reply_broadcast", PBool true)] in
     rtm_send_message channel message thread reply_broadcast = send_to_websocket frame
     ∧ ∀ s w ws txt rest,
         websocket s = Some ws → json_dumps w frame = inl txt →
         ws_sends w = inl () :: rest →
         rtm_send_message channel message thread reply_broadcast (s, w)
         = (Ret (), (s, set_ws_sends rest (log (WsSend ws txt) w))))
  ∧ (∀ reply_broadcast,
       let frame :=
         PDict [("type", PStr "message"); ("channel", channel); ("text", message)] in
       rtm_send_message channel message PNone reply_broadcast = send_to_websocket frame
       ∧ ∀ s w ws txt rest,
           websocket s = Some ws → json_dumps w frame = inl txt →
           ws_sends w = inl () :: rest →
           rtm_send_message channel message PNone reply_broadcast (s, w)
           = (Ret (), (s, set_ws_sends rest (log (WsSend ws txt) w)))).
Proof.
  split.
  - intros thread reply_broadcast Hthread Hbroadcast frame.
    assert (Hrun : rtm_send_message channel message thread reply_broadcast
                   = send_to_websocket frame).
    { unfold rtm_send_message. rewrite Hbroadcast. by destruct thread. }
    split; [exact Hrun |]. intros s w ws txt rest Hws Hdumps Hsends.
    rewrite Hrun. by apply send_to_websocket_sent.
  - intros reply_broadcast frame. split; [reflexivity |].
    intros s w ws txt rest Hws Hdumps Hsends.
    by apply (send_to_websocket_sent frame).
Qed.

Lemma rtm_send_message_frame_witness :
  let frame :=
    PDict [("type", PStr "message"); ("channel", PStr "C1"); ("text", PStr "hi");
           ("thread_ts", PStr "100.1"); ("reply_broadcast", PBool true)] in
  rtm_send_message (PStr "C1") (PStr "hi") (PStr "100.1") (PBool true)
  = send_to_websocket frame
  ∧ rtm_send_message (PStr "C1") (PStr "hi") (PStr "100.1") (PBool true)
      (listening, set_ws_sends [inl ()] silent)
    = (Ret (), (listening, set_ws_sends [] (log (WsSend 0 "frame") (set_ws_sends [inl ()] silent)))).
Proof.
  destruct (rtm_send_message_frame (PStr "C1") (PStr "hi")) as [Hthread _].
  destruct (Hthread (PStr "100.1") (PBool true)) as [Hframe Hsent];
    [discriminate | reflexivity |].
  split; [exact Hframe |].
  apply Hsent; reflexivity.
Defined.

(** ** Further properties: the handshake *)

(** X1: a handshake answered with a status other than 200 makes
    [rtm_connect] raise [SlackConnectionError], without a message, whatever
    the body holds; the object is left as it was and no websocket is asked
    for. *)
Theorem rtm_connect_bad_status (reconnect : bool) (timeout : pyval) (use_rtm_start : bool)
    (kwargs : dict) (s : Server) (w : World) (reply : Reply) (rest : list (Reply + exn)) :
  api_replies w = inl reply :: rest →
  status_code reply ≠ 200 →
  rtm_connect reconnect timeout use_rtm_start kwargs (s, w)
  = (Raise (SlackConnectionError None),
     (s, answered timeout use_rtm_start kwargs s w rest)).
Proof.
  intros Hreply Hstatus.
  unfold rtm_connect, mbind, St_bind, st_bind, self, gets, api_requester_do. simpl.
  rewrite Hreply. simpl.
  by destruct (Z.eqb_spec (status_code reply) 200).
Qed.

Lemma rtm_connect_bad_status_witness :
  rtm_connect false PNone true []
    (new "xoxb-1" None,
     set_api_replies
       [inl {| status_code := 500; json := Some (PDict sample_snapshot);
               text := EmptyString |}] silent)
  = (Raise (SlackConnectionError None),
     (new "xoxb-1" None,
      answered PNone true [] (new "xoxb-1" None)
        (set_api_replies
           [inl {| status_code := 500; json := Some (PDict sample_snapshot);
                   text := EmptyString |}] silent) [])).
Proof.
  apply (rtm_connect_bad_status false PNone true [] (new "xoxb-1" None) _
           {| status_code := 500; json := Some (PDict sample_snapshot);
              text := EmptyString |} []); [reflexivity | discriminate].
Defined.

(** X2: a handshake answered with status 200 and a body that cannot be used
    ends in the exception of the failing access, with the object left as it
    was: [ValueError] from [reply.json()] when the body is not JSON,
    [KeyError] when the object has no [ok], and [KeyError] when [ok] is true
    and there is no [url]. *)
Theorem rtm_connect_malformed (reconnect : bool) (timeout : pyval) (use_rtm_start : bool)
    (kwargs : dict) (s : Server) (w : World) (reply : Reply) (rest : list (Reply + exn)) :
  api_replies w = inl reply :: rest →
  status_code reply = 200 →
  let r := rtm_connect reconnect timeout use_rtm_start kwargs (s, w) in
  (json reply = None → r.1 = Raise ValueError ∧ r.2.1 = s)
  ∧ (∀ d, json reply = Some (PDict d) → dict_get "ok" d = None →
       r.1 = Raise (KeyError "ok") ∧ r.2.1 = s)
  ∧ (∀ d ok, json reply = Some (PDict d) → dict_get "ok" d = Some ok →
       truthy ok = true → dict_get "url" d = None →
       r.1 = Raise (KeyError "url") ∧ r.2.1 = s).
Proof.
  intros Hreply Hstatus r. subst r.
  unfold rtm_connect, mbind, St_bind, st_bind, self, gets, api_requester_do, reply_json.
  simpl. rewrite Hreply. simpl. rewrite Hstatus. simpl.
  split; [| split].
  - by intros ->.
  - intros d -> Hok. simpl. by rewrite Hok.
  - intros d ok -> Hok Htrue Hurl. simpl. rewrite Hok. simpl. rewrite Htrue.
    by rewrite Hurl.
Qed.

Lemma rtm_connect_malformed_witness :
  ((rtm_connect false PNone true [] (new "xoxb-1" None, garbled)).1 = Raise ValueError
   ∧ (rtm_connect false PNone true [] (new "xoxb-1" None, garbled)).2.1
     = new "xoxb-1" None)
  ∧ ((rtm_connect false PNone true [] (new "xoxb-1" None, without_ok)).1
     = Raise (KeyError "ok")
     ∧ (rtm_connect false PNone true [] (new "xoxb-1" None, without_ok)).2.1
       = new "xoxb-1" None)
  ∧ ((rtm_connect false PNone true [] (new "xoxb-1" None, without_url)).1
     = Raise (KeyError "url")
     ∧ (rtm_connect false PNone true [] (new "xoxb-1" None, without_url)).2.1
       = new "xoxb-1" None).
Proof.
  split; [| split].
  - apply (rtm_connect_malformed false PNone true [] (new "xoxb-1" None) garbled
             {| status_code := 200; json := None; text := "<html>" |} []);
      reflexivity.
  - destruct (rtm_connect_malformed false PNone true [] (new "xoxb-1" None) without_ok
                (sample_reply [("url", PStr "wss://example.test/ws")]) []
                eq_refl eq_refl) as (_ & Hok & _).
    apply (Hok [("url", PStr "wss://example.test/ws")]); reflexivity.
  - destruct (rtm_connect_malformed false PNone true [] (new "xoxb-1" None) without_url
                (sample_reply [("ok", PBool true)]) [] eq_refl eq_refl) as (_ & _ & Hurl).
    apply (Hurl [("ok", PBool true)] (PBool true)); reflexivity.
Defined.

Global Instance trace_grows_preorder : PreOrder trace_grows.
Proof.
  split.
  - intros σ. exists []. by rewrite app_nil_r.
  - intros a b c [m1 H1] [m2 H2]. exists (m1 ++ m2)%list.
    by rewrite H2, H1, app_assoc.
Qed.

Lemma same_world_trace_grows σ σ' : σ'.2 = σ.2 → trace_grows σ σ'.
Proof. intros H. exists []. by rewrite H, app_nil_r. Qed.

Lemma same_link_trace_grows σ σ' : same_link σ σ' → trace_grows σ σ'.
Proof. intros (_ & _ & _ & _ & _ & H). by apply same_world_trace_grows. Qed.

Lemma answer_trace {A} (script : list (A + exn)) rest (s : Server) (w : World) :
  (∀ l w', trace (rest l w') = trace w') →
  trace (answer script rest s w).2.2 = trace w.
Proof. intros Hrest. destruct script as [| [a | e] script']; simpl; auto. Qed.

Lemma assign_trace_grows (f : Server → Server) : keeps trace_grows (assign f).
Proof. intros [s w]. by apply same_world_trace_grows. Qed.

Lemma reply_json_trace_grows (reply : Reply) : keeps trace_grows (reply_json reply).
Proof.
  unfold reply_json. destruct (json reply); intros σ; by apply same_world_trace_grows.
Qed.

Lemma dumps_trace_grows (data : pyval) : keeps trace_grows (dumps data).
Proof.
  intros [s w]. apply same_world_trace_grows. unfold dumps. simpl.
  by destruct (json_dumps w data).
Qed.

Lemma proxy_settings_trace_grows : keeps trace_grows proxy_settings.
Proof.
  intros [s w]. apply same_world_trace_grows. rewrite proxy_settings_run.
  destruct (proxies s ≫= (.!! "http")) as [url |]; [| done].
  by destruct (parse_url w url).
Qed.

Lemma wsclient_connect_trace_grows (url : pyval) (headers : dict) :
  keeps trace_grows (wsclient_connect url headers).
Proof.
  intros [s w]. exists [WsConnect url headers]. unfold wsclient_connect. simpl.
  by destruct (ws_connects w) as [| [[] | msg] script'].
Qed.

Lemma websocket_send_trace_grows (data : string) : keeps trace_grows (websocket_send data).
Proof.
  intros [s w]. unfold websocket_send. simpl.
  destruct (websocket s) as [ws |]; [| by apply same_world_trace_grows].
  exists [WsSend ws data]. simpl. by rewrite answer_trace.
Qed.

Lemma websocket_recv_trace_grows : keeps trace_grows websocket_recv.
Proof.
  intros [s w]. unfold websocket_recv. simpl.
  destruct (websocket s) as [ws |]; [| by apply same_world_trace_grows].
  exists [WsRecv ws]. simpl. by rewrite answer_trace.
Qed.

Lemma _connect_slack_websocket_trace_grows (ws_url : pyval) :
  keeps trace_grows (_connect_slack_websocket ws_url).
Proof.
  unfold _connect_slack_websocket.
  keeps_with ltac:(first [apply proxy_settings_trace_grows]).
  destruct a as [[? ?] ?].
  keeps_with ltac:(first [apply wsclient_connect_trace_grows]).
  case_match; [apply assign_trace_grows | keeps_steps].
Qed.

(** The trace after [rtm_connect] continues the trace before it with the
    request of the handshake. *)
Lemma rtm_connect_trace (reconnect : bool) (timeout : pyval) (use_rtm_start : bool)
    (kwargs : dict) (s : Server) (w : World) :
  ∃ more,
    trace (rtm_connect reconnect timeout use_rtm_start kwargs (s, w)).2.2
    = (trace w
       ++ ApiCall (token s) (if use_rtm_start then "rtm.start" else "rtm.connect")
            (PDict kwargs) timeout :: more)%list.
Proof.
  unfold rtm_connect.
  unfold mbind at 1 2, St_bind, st_bind at 1 2, self, gets, api_requester_do. simpl.
  destruct (api_replies w) as [| [reply | e] script]; simpl; try by exists [].
  match goal with
  | |- ∃ more, trace (?k ?σ1).2.2 = _ =>
      assert (Hk : keeps trace_grows k); [| destruct (Hk σ1) as [more Hmore]]
  end.
  - case_match; [keeps_steps |].
    keeps_with ltac:(first [apply reply_json_trace_grows]).
    case_match; [| keeps_steps].
    keeps_with ltac:(first [ apply assign_trace_grows
                           | apply _connect_slack_websocket_trace_grows ]).
    case_match; [| keeps_steps].
    apply (keeps_weaken same_link _ _ same_link_trace_grows), parse_slack_login_data_link.
  - exists more. rewrite Hmore. simpl. by rewrite <- app_assoc.
Qed.

(** X3: whatever its arguments and however it ends, [rtm_connect] makes one
    request to the Web API and no other: to [rtm.start] when [use_rtm_start]
    is true and to [rtm.connect] when it is not, with the token of the
    server, the keyword arguments as [post_data], and the timeout. *)
Theorem rtm_connect_request (reconnect : bool) (timeout : pyval) (use_rtm_start : bool)
    (kwargs : dict) (s : Server) (w : World) :
  List.filter is_api_call
    (trace (rtm_connect reconnect timeout use_rtm_start kwargs (s, w)).2.2)
  = (List.filter is_api_call (trace w)
     ++ [ApiCall (token s) (if use_rtm_start then "rtm.start" else "rtm.connect")
           (PDict kwargs) timeout])%list.
Proof.
  destruct (rtm_connect_trace reconnect timeout use_rtm_start kwargs s w) as [more Hmore].
  pose proof (rtm_connect_api_calls reconnect timeout use_rtm_start kwargs (s, w)) as Hn.
  unfold api_calls in Hn. rewrite Hmore in *. simpl in Hn.
  rewrite List.filter_app in *. simpl in *. rewrite length_app in Hn. simpl in Hn.
  destruct (List.filter is_api_call more) as [| e l]; [done |]. simpl in Hn. lia.
Qed.

(** ** Further properties: the first connect *)

Global Instance same_but_directory_preorder : PreOrder same_but_directory.
Proof.
  split; [by intros σ |].
  intros a b c (? & ? & ? & ? & ? & ? & ? & ?) (? & ? & ? & ? & ? & ? & ? & ?).
  repeat split; congruence.
Qed.

Lemma attach_user_only_directory (name user_id real_name tz : pyval) :
  keeps same_but_directory (attach_user name user_id real_name tz).
Proof.
  unfold attach_user. destruct (as_key user_id); [| keeps_steps].
  by intros [s w].
Qed.

Lemma attach_channel_only_directory (name channel_id members : pyval) :
  keeps same_but_directory (attach_channel name channel_id members).
Proof.
  unfold attach_channel. intros [s w]. simpl.
  unfold mbind, St_bind, st_bind, self, gets. simpl.
  by destruct (find channel_id (channels s)).
Qed.

Lemma parse_channel_only_directory : keeps (beside same_but_directory) parse_channel.
Proof.
  unfold parse_channel. keeps_steps.
  - case_match; keeps_steps.
  - case_match; keeps_steps.
  - apply keeps_lift, attach_channel_only_directory.
Qed.

Lemma parse_user_only_directory : keeps (beside same_but_directory) parse_user.
Proof.
  unfold parse_user. keeps_steps.
  - case_match; keeps_steps.
  - case_match; keeps_steps.
  - apply keeps_lift, attach_user_only_directory.
Qed.

Lemma on_login_data_only_directory (k : string)
    (parse : St (pyval * (Server * World)) unit) :
  keeps (beside same_but_directory) parse →
  keeps same_but_directory (on_login_data k parse).
Proof.
  intros Hp. unfold on_login_data. keeps_steps.
  intros σ. unfold in_place.
  match goal with |- context [parse (?v, σ)] => specialize (Hp (v, σ)) end.
  destruct (parse _) as [r [v' [s' w']]]. unfold beside in Hp. simpl in *.
  destruct Hp as (? & ? & ? & ? & ? & ? & ? & ?). by repeat split.
Qed.

(** Once the team and the bot are read off the snapshot, what is left of
    [parse_slack_login_data] is the parsing of the four lists. *)
Lemma parse_slack_login_data_run (snapshot team me : dict) (d n : pyval)
    (use_rtm_start : bool) (s : Server) (w : World) :
  dict_get "team" snapshot = Some (PDict team) → dict_get "domain" team = Some d →
  dict_get "self" snapshot = Some (PDict me) → dict_get "name" me = Some n →
  parse_slack_login_data (PDict snapshot) use_rtm_start (s, w)
  = (if use_rtm_start then
       on_login_data "channels" parse_channel_data;;
       on_login_data "groups" parse_channel_data;;
       on_login_data "users" parse_user_data;;
       on_login_data "ims" parse_channel_data
     else mret ())
      (set_username n (set_domain d (set_login_data (PDict snapshot) s)), w).
Proof.
  intros Hteam Hdomain Hself Hname. unfold parse_slack_login_data.
  unfold mbind at 1 2 3 4 5 6 7 8 9, St_bind, st_bind at 1 2 3 4 5 6 7 8 9,
    assign, modify, self, gets. simpl.
  rewrite Hteam. simpl. rewrite Hdomain. simpl. rewrite Hself. simpl.
  by rewrite Hname.
Qed.

(** The lists are parsed without touching anything but the directory and
    the retained snapshot. *)
Lemma parse_lists_only_directory :
  keeps same_but_directory
    (on_login_data "channels" parse_channel_data;;
     on_login_data "groups" parse_channel_data;;
     on_login_data "users" parse_user_data;;
     on_login_data "ims" parse_channel_data).
Proof.
  assert (Hc : ∀ k, keeps same_but_directory (on_login_data k parse_channel_data))
    by (intros k; apply on_login_data_only_directory, keeps_for_each,
          parse_channel_only_directory; apply _).
  assert (Hu : ∀ k, keeps same_but_directory (on_login_data k parse_user_data))
    by (intros k; apply on_login_data_only_directory, keeps_for_each,
          parse_user_only_directory; apply _).
  keeps_with ltac:(first [apply Hc | apply Hu]).
Qed.

(** The world once the websocket of an accepted handshake is open. *)
Lemma first_connect_run (timeout : pyval) (use_rtm_start : bool) (kwargs : dict)
    (s : Server) (w : World) (reply : Reply) (rest : list (Reply + exn))
    (snapshot : dict) (ok url : pyval) (more : list (unit + string)) :
  api_replies w = inl reply :: rest →
  status_code reply = 200 →
  json reply = Some (PDict snapshot) →
  dict_get "ok" snapshot = Some ok →
  truthy ok = true →
  dict_get "url" snapshot = Some url →
  proxy_readable s w →
  ws_connects w = inl () :: more →
  ∃ w', rtm_connect false timeout use_rtm_start kwargs (s, w)
        = parse_slack_login_data (PDict snapshot) use_rtm_start
            (set_websocket (Some (ws_opened w)) (set_ws_url url s), w').
Proof.
  intros Hreply Hstatus Hjson Hok Htrue Hurl Hproxy Hopen.
  rewrite (rtm_connect_accepted false timeout use_rtm_start kwargs s w
             reply rest snapshot Hreply Hstatus Hjson ok url Hok Htrue Hurl).
  unfold connect_slack_websocket, mbind, St_bind, st_bind.
  rewrite (_connect_slack_websocket_opens url (set_ws_url url s)
             (answered timeout use_rtm_start kwargs s w rest) more Hproxy Hopen).
  by eexists.
Qed.

(** X5: a first connect that is accepted and whose websocket opens stores
    the team's domain in [domain] and the bot's name in [username], whether
    or not the lists of the snapshot then parse; with [use_rtm_start] false
    it returns normally, keeps the answer in [login_data] as received and
    attaches nothing. *)
Theorem first_connect_identity (timeout : pyval) (use_rtm_start : bool) (kwargs : dict)
    (s : Server) (w : World) (reply : Reply) (rest : list (Reply + exn))
    (snapshot team me : dict) (ok url d n : pyval) (more : list (unit + string)) :
  api_replies w = inl reply :: rest →
  status_code reply = 200 →
  json reply = Some (PDict snapshot) →
  dict_get "ok" snapshot = Some ok →
  truthy ok = true →
  dict_get "url" snapshot = Some url →
  proxy_readable s w →
  ws_connects w = inl () :: more →
  dict_get "team" snapshot = Some (PDict team) → dict_get "domain" team = Some d →
  dict_get "self" snapshot = Some (PDict me) → dict_get "name" me = Some n →
  let r := rtm_connect false timeout use_rtm_start kwargs (s, w) in
  domain r.2.1 = d ∧ username r.2.1 = n
  ∧ (use_rtm_start = false →
       r.1 = Ret () ∧ login_data r.2.1 = PDict snapshot
       ∧ users r.2.1 = users s ∧ channels r.2.1 = channels s).
Proof.
  intros Hreply Hstatus Hjson Hok Htrue Hurl Hproxy Hopen Hteam Hdomain Hself Hname r.
  subst r.
  destruct (first_connect_run timeout use_rtm_start kwargs s w reply rest snapshot ok url
              more Hreply Hstatus Hjson Hok Htrue Hurl Hproxy Hopen) as [w' ->].
  rewrite (parse_slack_login_data_run snapshot team me d n use_rtm_start
             _ _ Hteam Hdomain Hself Hname).
  destruct use_rtm_start; [| by simpl].
  match goal with
  | |- context [mbind ?k ?m (?s1, ?w1)] =>
      pose proof (parse_lists_only_directory (s1, w1)) as (_ & Hu & Hd & _)
  end.
  simpl in Hu, Hd. split; [exact Hd |]. split; [exact Hu | discriminate].
Qed.

Lemma first_connect_identity_witness :
  let r := rtm_connect false PNone true [] (new "xoxb-1" None, welcoming) in
  domain r.2.1 = PStr "acme" ∧ username r.2.1 = PStr "bot"
  ∧ (true = false →
       r.1 = Ret () ∧ login_data r.2.1 = PDict sample_snapshot
       ∧ users r.2.1 = users (new "xoxb-1" None)
       ∧ channels r.2.1 = channels (new "xoxb-1" None)).
Proof.
  apply (first_connect_identity PNone true [] (new "xoxb-1" None) welcoming
           (sample_reply sample_snapshot) [] sample_snapshot
           [("domain", PStr "acme")] [("name", PStr "bot")]
           (PBool true) (PStr "wss://example.test/ws") (PStr "acme") (PStr "bot") []);
    try reflexivity.
  intros url H. discriminate H.
Defined.

Lemma parse_slack_login_data_light_directory (snapshot : pyval) :
  keeps same_directory (parse_slack_login_data snapshot false).
Proof.
  unfold parse_slack_login_data.
  keeps_with ltac:(first [by intros [s w]]).
Qed.

(** X4: with [use_rtm_start] false, no connect attaches anything: [users]
    and [channels] are the same after [rtm_connect] as before, on a first
    connect too and even when the answer carries the lists of a snapshot. *)
Theorem rtm_connect_light_keeps_directory (reconnect : bool) (timeout : pyval)
    (kwargs : dict) (s : Server) (w : World) :
  let r := rtm_connect reconnect timeout false kwargs (s, w) in
  users r.2.1 = users s ∧ channels r.2.1 = channels s.
Proof.
  assert (H : keeps same_directory (rtm_connect reconnect timeout false kwargs));
    [| exact (H (s, w))].
  unfold rtm_connect, connect_slack_websocket.
  keeps_with ltac:(collaborators same_server_directory).
  case_match; keeps_with ltac:(collaborators same_server_directory).
  case_match;
    keeps_with ltac:(first [ apply _connect_slack_websocket_directory
                           | collaborators same_server_directory ]).
  - by intros [s0 w0].
  - case_match; [| keeps_steps]. apply parse_slack_login_data_light_directory.
Qed.

(** X6: a first connect that is accepted, whose websocket opens and whose
    answer has no [team] ends in [KeyError] with the session half made:
    [ws_url] is set, the websocket is open and the answer is kept in
    [login_data], while [domain], [username] and the directory are as
    before. *)
Theorem first_connect_without_team (timeout : pyval) (use_rtm_start : bool)
    (kwargs : dict) (s : Server) (w : World) (reply : Reply) (rest : list (Reply + exn))
    (snapshot : dict) (ok url : pyval) (more : list (unit + string)) :
  api_replies w = inl reply :: rest →
  status_code reply = 200 →
  json reply = Some (PDict snapshot) →
  dict_get "ok" snapshot = Some ok →
  truthy ok = true →
  dict_get "url" snapshot = Some url →
  proxy_readable s w →
  ws_connects w = inl () :: more →
  dict_get "team" snapshot = None →
  let r := rtm_connect false timeout use_rtm_start kwargs (s, w) in
  r.1 = Raise (KeyError "team")
  ∧ ws_url r.2.1 = url ∧ websocket r.2.1 = Some (ws_opened w)
  ∧ login_data r.2.1 = PDict snapshot
  ∧ domain r.2.1 = domain s ∧ username r.2.1 = username s
  ∧ users r.2.1 = users s ∧ channels r.2.1 = channels s.
Proof.
  intros Hreply Hstatus Hjson Hok Htrue Hurl Hproxy Hopen Hteam r. subst r.
  destruct (first_connect_run timeout use_rtm_start kwargs s w reply rest snapshot ok url
              more Hreply Hstatus Hjson Hok Htrue Hurl Hproxy Hopen) as [w' ->].
  unfold parse_slack_login_data, mbind, St_bind, st_bind, assign, modify, self, gets.
  simpl. by rewrite Hteam.
Qed.

Lemma first_connect_without_team_witness :
  let r := rtm_connect false PNone true [] (new "xoxb-1" None, teamless) in
  r.1 = Raise (KeyError "team")
  ∧ ws_url r.2.1 = PStr "wss://example.test/ws" ∧ websocket r.2.1 = Some 0%nat
  ∧ login_data r.2.1
    = PDict [("ok", PBool true); ("url", PStr "wss://example.test/ws")]
  ∧ domain r.2.1 = PNone ∧ username r.2.1 = PNone
  ∧ users r.2.1 = ∅ ∧ channels r.2.1 = [].
Proof.
  apply (first_connect_without_team PNone true [] (new "xoxb-1" None) teamless
           (sample_reply [("ok", PBool true); ("url", PStr "wss://example.test/ws")]) []
           [("ok", PBool true); ("url", PStr "wss://example.test/ws")]
           (PBool true) (PStr "wss://example.test/ws") []); try reflexivity.
  intros url H. discriminate H.
Defined.

(** ** Further properties: the directory *)

Lemma list_find_app {A} (f : A → bool) (l l' : list A) :
  List.find f (l ++ l')%list
  = match List.find f l with Some x => Some x | None => List.find f l' end.
Proof. induction l as [| x l IH]; simpl; [done |]. by destruct (f x). Qed.

(** What the lookup finds, it still finds when channels are appended. *)
Lemma find_app_l (key : pyval) (l l' : list Channel.t) :
  is_Some (find key l) → is_Some (find key (l ++ l')%list).
Proof.
  unfold find. rewrite !list_find_app.
  destruct (List.find (λ c, pyval_eqb (Channel.id c) key) l); [by eauto |].
  destruct (List.find (λ c, pyval_eqb (Channel.name c) key) l); [| by intros [? ?]].
  intros _. by destruct (List.find (λ c, pyval_eqb (Channel.id c) key) l').
Qed.

(** A channel appended under an identifier the lookup did not find is what
    the lookup finds next. *)
Lemma find_appended (key : pyval) (l : list Channel.t) (c : Channel.t) :
  find key l = None → Channel.id c = key → find key (l ++ [c])%list = Some c.
Proof.
  unfold find. intros Hnone Hid. rewrite !list_find_app.
  destruct (List.find (λ c, pyval_eqb (Channel.id c) key) l); [done |].
  simpl. by rewrite Hid, pyval_eqb_refl.
Qed.

(** X7: attaching a channel whose identifier the lookup does not find puts
    it last in the list, after the channels already there and in their
    order, with an empty list of members when none is given; looking the
    identifier up then yields that channel. *)
Theorem attach_channel_then_find (name channel_id members : pyval) (s : Server)
    (w : World) :
  find channel_id (channels s) = None →
  let c := Channel.Build name channel_id (if is_none members then PList [] else members) in
  let r := attach_channel name channel_id members (s, w) in
  r = (Ret (), (set_channels (channels s ++ [c]) s, w))
  ∧ find channel_id (channels r.2.1) = Some c.
Proof.
  intros Hfind c r.
  assert (Hr : r = (Ret (), (set_channels (channels s ++ [c]) s, w))).
  { subst r. unfold attach_channel, mbind, St_bind, st_bind, self, gets. simpl.
    by rewrite Hfind. }
  split; [exact Hr |]. rewrite Hr. simpl. by apply find_appended.
Qed.

Lemma attach_channel_then_find_witness :
  let c := Channel.Build (PStr "random") (PStr "C2") (PList []) in
  let r := attach_channel (PStr "random") (PStr "C2") PNone (populated, silent) in
  r = (Ret (), (set_channels (channels populated ++ [c]) populated, silent))
  ∧ find (PStr "C2") (channels r.2.1) = Some c.
Proof.
  apply (attach_channel_then_find (PStr "random") (PStr "C2") PNone populated silent).
  reflexivity.
Defined.

(** X8: attaching twice under one identifier is attaching once: whatever
    the directory holds, a second [attach_channel] with the identifier of
    the first, and any name and members, changes nothing more. *)
Theorem attach_channel_twice (name name' channel_id members members' : pyval)
    (σ : Server * World) :
  (attach_channel name channel_id members;;
   attach_channel name' channel_id members') σ
  = attach_channel name channel_id members σ.
Proof.
  destruct σ as [s w].
  unfold mbind at 1, St_bind, st_bind at 1.
  destruct (find channel_id (channels s)) as [c0 |] eqn:Hfind.
  - assert (H1 : ∀ n m, attach_channel n channel_id m (s, w) = (Ret (), (s, w))).
    { intros n m. unfold attach_channel, mbind, St_bind, st_bind, self, gets. simpl.
      by rewrite Hfind. }
    by rewrite !H1.
  - unfold attach_channel, mbind, St_bind, st_bind, self, gets. simpl.
    rewrite Hfind. simpl. by erewrite find_appended.
Qed.

(** X9: attaching two users under one identifier is attaching the second:
    the last write wins, and nothing of the first is left. *)
Theorem attach_user_twice (name name' user_id real_name real_name' tz tz' : pyval)
    (σ : Server * World) :
  (attach_user name user_id real_name tz;;
   attach_user name' user_id real_name' tz') σ
  = attach_user name' user_id real_name' tz' σ.
Proof.
  destruct σ as [s w].
  unfold attach_user, mbind, St_bind, st_bind.
  destruct (as_key user_id) as [k |]; [| done].
  unfold assign, modify, set_users. simpl. by rewrite insert_insert_eq.
Qed.

(** ** Further properties: parsing lists of records *)

Lemma filled_channel_id (id : pyval) (d : dict) :
  dict_get "id" (filled_channel id d) = dict_get "id" d.
Proof.
  unfold filled_channel, dict_mem.
  destruct (dict_get "name" d) eqn:Hname.
  - destruct (dict_get "members" d) eqn:Hmembers; by dict_steps.
  - destruct (dict_get "members" (dict_set "name" id d)); by dict_steps.
Qed.

(** On a record whose identifier the lookup finds, the loop body fills the
    record in and leaves the object alone. *)
Lemma parse_channel_findable (d : dict) (id : pyval) (s : Server) (w : World) :
  dict_get "id" d = Some id → is_Some (find id (channels s)) →
  parse_channel (PDict d, (s, w)) = (Ret (), (PDict (filled_channel id d), (s, w))).
Proof.
  intros Hid [c Hfind]. rewrite (parse_channel_run d id (s, w) Hid).
  unfold lift, attach_channel, mbind, St_bind, st_bind, self, gets. simpl.
  by rewrite Hfind.
Qed.

Lemma for_in_parse_channel_findable (l : list pyval) (s : Server) (w : World) :
  Forall (findable (channels s)) l →
  for_in parse_channel l (s, w) = (Ret (), (fill_channel_record <$> l, (s, w))).
Proof.
  induction 1 as [| x l (d & id & -> & Hid & Hfind) _ IH]; simpl; [done |].
  rewrite (parse_channel_findable d id s w Hid Hfind), IH. by rewrite Hid.
Qed.

Lemma known_channel_findable (chans : list Channel.t) (v : pyval) :
  known_channel chans v → findable chans v.
Proof.
  intros (d & id & c & -> & Hid & Hc & Hcid). exists d, id. repeat split; [done |].
  destruct (find_known id chans c Hc Hcid) as (c0 & -> & _). by eexists.
Qed.

(** X10: parsing a list of channel records whose identifiers are all those
    of channels already attached returns normally and leaves the object and
    the world as they were: no channel is added, and the name and members
    stored for an identifier are not replaced by those of the record. *)
Theorem parse_known_channels (l : list pyval) (s : Server) (w : World) :
  Forall (known_channel (channels s)) l →
  let r := parse_channel_data (PList l, (s, w)) in
  r.1 = Ret () ∧ r.2.2 = (s, w).
Proof.
  intros Hl r. subst r. unfold parse_channel_data, for_each. simpl.
  rewrite for_in_parse_channel_findable; [done |].
  eapply Forall_impl; [exact Hl |]. apply known_channel_findable.
Qed.

Lemma parse_known_channels_witness :
  let l := [PDict [("id", PStr "C1"); ("name", PStr "renamed")]] in
  let r := parse_channel_data (PList l, (populated, silent)) in
  r.1 = Ret () ∧ r.2.2 = (populated, silent).
Proof.
  apply (parse_known_channels
           [PDict [("id", PStr "C1"); ("name", PStr "renamed")]] populated silent).
  constructor; [| constructor].
  exists [("id", PStr "C1"); ("name", PStr "renamed")], (PStr "C1"), general.
  repeat split; [vm_compute; left].
Defined.

(** After a list of channel records is parsed, the lookup finds the
    identifier of each of them, and whatever it found before. *)
Lemma for_in_parse_channel_attaches (l : list pyval) (s : Server) (w : World) :
  Forall channel_record l →
  ∃ s', for_in parse_channel l (s, w) = (Ret (), (fill_channel_record <$> l, (s', w)))
        ∧ (∀ key, is_Some (find key (channels s)) → is_Some (find key (channels s')))
        ∧ Forall (findable (channels s')) (fill_channel_record <$> l).
Proof.
  intros Hl. revert s. induction Hl as [| x l (d & id & -> & Hid) _ IH]; intros s.
  { exists s. by repeat split. }
  simpl. rewrite (parse_channel_run d id (s, w) Hid).
  unfold lift, attach_channel, mbind, St_bind, st_bind, self, gets. simpl.
  assert (Hfilled : findable
            (match find id (channels s) with
             | Some _ => channels s
             | None =>
                 (channels s
                  ++ [Channel.Build (default id (dict_get "name" d)) id
                        (if is_none (default (PList []) (dict_get "members" d))
                         then PList [] else default (PList []) (dict_get "members" d))])%list
             end) (PDict (filled_channel id d))).
  { exists (filled_channel id d), id. rewrite filled_channel_id.
    repeat split; [done |].
    destruct (find id (channels s)) eqn:Hfind; [by eexists |].
    erewrite find_appended; [by eexists | done | done]. }
  destruct (find id (channels s)) eqn:Hfind; simpl.
  - destruct (IH s) as (s' & -> & Hmono & Hall). exists s'. rewrite Hid.
    repeat split; [done |]. constructor; [| done].
    destruct Hfilled as (d' & id' & Hd & Hid' & Hsome). exists d', id'.
    repeat split; auto.
  - destruct (IH (set_channels
                    (channels s
                     ++ [Channel.Build (default id (dict_get "name" d)) id
                           (if is_none (default (PList []) (dict_get "members" d))
                            then PList [] else default (PList []) (dict_get "members" d))])
                    s)) as (s' & -> & Hmono & Hall).
    exists s'. rewrite Hid. simpl in Hmono.
    repeat split.
    + intros key Hkey. by apply Hmono, find_app_l.
    + constructor; [| done].
      destruct Hfilled as (d' & id' & Hd & Hid' & Hsome). exists d', id'.
      repeat split; auto.
Qed.

(** X11: parsing a list of channel records a second time adds nothing: the
    second pass over the records, as the first left them, returns normally
    and leaves the object and the world as the first pass left them. *)
Theorem parse_channel_data_twice (l : list pyval) (s : Server) (w : World) :
  Forall channel_record l →
  let r1 := parse_channel_data (PList l, (s, w)) in
  let r2 := parse_channel_data r1.2 in
  r1.1 = Ret () ∧ r2.1 = Ret () ∧ r2.2.2 = r1.2.2.
Proof.
  intros Hl r1 r2. subst r1 r2. unfold parse_channel_data, for_each. simpl.
  destruct (for_in_parse_channel_attaches l s w Hl) as (s' & -> & _ & Hall). simpl.
  rewrite (for_in_parse_channel_findable _ s' w Hall). by simpl.
Qed.

Lemma parse_channel_data_twice_witness :
  let l := [PDict [("id", PStr "C2")]; PDict [("id", PStr "C2"); ("name", PStr "x")]] in
  let r1 := parse_channel_data (PList l, (populated, silent)) in
  let r2 := parse_channel_data r1.2 in
  r1.1 = Ret () ∧ r2.1 = Ret () ∧ r2.2.2 = r1.2.2.
Proof.
  apply (parse_channel_data_twice
           [PDict [("id", PStr "C2")]; PDict [("id", PStr "C2"); ("name", PStr "x")]]
           populated silent).
  repeat constructor.
  - exists [("id", PStr "C2")], (PStr "C2"). split; reflexivity.
  - exists [("id", PStr "C2"); ("name", PStr "x")], (PStr "C2"). split; reflexivity.
Defined.

(** X12: among channel records with one identifier, the first one wins: when
    the lookup does not find the identifier of the first record of a list
    and the records after it repeat that identifier, parsing the list
    attaches the channel the first record describes and no other. *)
Theorem first_channel_record_wins (d : dict) (id : pyval) (l : list pyval)
    (s : Server) (w : World) :
  dict_get "id" d = Some id →
  find id (channels s) = None →
  Forall (λ v, ∃ d', v = PDict d' ∧ dict_get "id" d' = Some id) l →
  let r := parse_channel_data (PList (PDict d :: l), (s, w)) in
  r.1 = Ret ()
  ∧ channels r.2.2.1
    = (channels s
       ++ [Channel.Build (default id (dict_get "name" d)) id
             (let members := default (PList []) (dict_get "members" d) in
              if is_none members then PList [] else members)])%list.
Proof.
  intros Hid Hfind Hl r. subst r. unfold parse_channel_data, for_each. simpl.
  rewrite (parse_channel_run d id (s, w) Hid).
  unfold lift, attach_channel, mbind, St_bind, st_bind, self, gets. simpl.
  rewrite Hfind. simpl.
  rewrite for_in_parse_channel_findable; [done |].
  eapply Forall_impl; [exact Hl |]. intros v (d' & -> & Hid'). exists d', id.
  repeat split; [done |]. simpl. erewrite find_appended; [by eexists | done | done].
Qed.

Lemma first_channel_record_wins_witness :
  let r := parse_channel_data
             (PList [PDict [("id", PStr "C2"); ("name", PStr "first")];
                     PDict [("id", PStr "C2"); ("name", PStr "second")]],
              (populated, silent)) in
  r.1 = Ret ()
  ∧ channels r.2.2.1
    = (channels populated ++ [Channel.Build (PStr "first") (PStr "C2") (PList [])])%list.
Proof.
  apply (first_channel_record_wins [("id", PStr "C2"); ("name", PStr "first")]
           (PStr "C2") [PDict [("id", PStr "C2"); ("name", PStr "second")]]
           populated silent); try reflexivity.
  constructor; [| constructor].
  exists [("id", PStr "C2"); ("name", PStr "second")]. split; reflexivity.
Defined.

Lemma for_in_app {σ} (body : St (pyval * σ) unit) (l l' : list pyval) (s : σ) :
  for_in body (l ++ l')%list s
  = match for_in body l s with
    | (Ret _, (l1, s1)) =>
        let '(r, (l2, s2)) := for_in body l' s1 in (r, ((l1 ++ l2)%list, s2))
    | (r, (l1, s1)) => (r, ((l1 ++ l')%list, s1))
    end.
Proof.
  revert s. induction l as [| x l IH]; intros s; simpl.
  - by destruct (for_in body l' s) as [r [l2 s2]].
  - destruct (body (x, s)) as [[[] | e |] [x' s']]; try done.
    rewrite IH. destruct (for_in body l s') as [[[] | e |] [l1 s1]]; try done.
    by destruct (for_in body l' s1) as [r [l2 s2]].
Qed.

(** X13: among user records with one identifier, the last one wins: after a
    list of user records is parsed, the entry under the key of its last
    record is the user that record describes, whatever the records before
    it attached. *)
Theorem last_user_record_wins (l : list pyval) (d : dict) (id name : pyval) (k : pykey)
    (s : Server) (w : World) :
  Forall user_record l →
  dict_get "id" d = Some id →
  as_key id = Some k →
  dict_get "name" d = Some name →
  let r := parse_user_data (PList (l ++ [PDict d]), (s, w)) in
  r.1 = Ret ()
  ∧ users r.2.2.1 !! k
    = Some (User.Build name id (default name (dict_get "real_name" d))
              (default (PStr "unknown") (dict_get "tz" d))).
Proof.
  intros Hl Hid Hk Hname r. subst r. unfold parse_user_data, for_each. simpl.
  rewrite for_in_app.
  pose proof (parse_user_data_returns l (s, w) Hl) as Hret.
  unfold parse_user_data, for_each in Hret. simpl in Hret.
  destruct (for_in parse_user l (s, w)) as [r1 [l1 [s1 w1]]]. simpl in Hret. subst r1.
  simpl. rewrite (parse_user_run d id name (s1, w1) Hid Hname).
  unfold lift, attach_user. simpl. rewrite Hk. simpl.
  split; [done |]. apply lookup_insert_eq.
Qed.

Lemma last_user_record_wins_witness :
  let r := parse_user_data
             (PList ([PDict [("id", PStr "U1"); ("name", PStr "a")]]
                     ++ [PDict [("id", PStr "U1"); ("name", PStr "b")]]),
              (populated, silent)) in
  r.1 = Ret ()
  ∧ users r.2.2.1 !! KStr "U1"
    = Some (User.Build (PStr "b") (PStr "U1") (PStr "b") (PStr "unknown")).
Proof.
  apply (last_user_record_wins [PDict [("id", PStr "U1"); ("name", PStr "a")]]
           [("id", PStr "U1"); ("name", PStr "b")] (PStr "U1") (PStr "b") (KStr "U1")
           populated silent); try reflexivity.
  constructor; [| constructor].
  exists [("id", PStr "U1"); ("name", PStr "a")], (PStr "U1"), (PStr "a"), (KStr "U1").
  repeat split; reflexivity.
Defined.

(** X14: a record without a field the loop needs stops the parsing with
    [KeyError], the records before it having been attached and those after
    it not: a channel record without [id], and a user record without
    [name], raise for that field and leave the object as the records before
    them made it. *)
Theorem parse_stops_at_missing_field (l l' : list pyval) (d : dict)
    (s : Server) (w : World) :
  (Forall channel_record l → dict_get "id" d = None →
   let r := parse_channel_data (PList (l ++ PDict d :: l'), (s, w)) in
   r.1 = Raise (KeyError "id")
   ∧ r.2.2 = (parse_channel_data (PList l, (s, w))).2.2)
  ∧ (Forall user_record l → dict_get "name" d = None →
     let r := parse_user_data (PList (l ++ PDict d :: l'), (s, w)) in
     r.1 = Raise (KeyError "name")
     ∧ r.2.2 = (parse_user_data (PList l, (s, w))).2.2).
Proof.
  split.
  - intros Hl Hid r. subst r. unfold parse_channel_data, for_each. simpl.
    rewrite for_in_app.
    pose proof (parse_channel_data_returns l (s, w) Hl) as Hret.
    unfold parse_channel_data, for_each in Hret. simpl in Hret.
    destruct (for_in parse_channel l (s, w)) as [r1 [l1 σ1]]. simpl in Hret. subst r1.
    simpl. unfold parse_channel, contains, item, setitem, dict_mem, mbind, St_bind,
      st_bind. simpl.
    destruct (dict_get "name" d) eqn:Hname;
      destruct (dict_get "members" d) eqn:Hmembers; dict_steps; done.
  - intros Hl Hname r. subst r. unfold parse_user_data, for_each. simpl.
    rewrite for_in_app.
    pose proof (parse_user_data_returns l (s, w) Hl) as Hret.
    unfold parse_user_data, for_each in Hret. simpl in Hret.
    destruct (for_in parse_user l (s, w)) as [r1 [l1 σ1]]. simpl in Hret. subst r1.
    simpl. unfold parse_user, contains, item, setitem, dict_mem, mbind, St_bind,
      st_bind. simpl.
    destruct (dict_get "tz" d) eqn:Htz;
      destruct (dict_get "real_name" d) eqn:Hreal; dict_steps; done.
Qed.

Lemma parse_stops_at_missing_field_witness :
  (let r := parse_channel_data
              (PList ([PDict [("id", PStr "C2")]]
                      ++ PDict [("name", PStr "nameless")] :: [PDict [("id", PStr "C3")]]),
               (populated, silent)) in
   r.1 = Raise (KeyError "id")
   ∧ r.2.2 = (parse_channel_data (PList [PDict [("id", PStr "C2")]],
                (populated, silent))).2.2)
  ∧ (let r := parse_user_data
                (PList ([PDict [("id", PStr "U2"); ("name", PStr "bob")]]
                        ++ PDict [("id", PStr "U3")] :: []),
                 (populated, silent)) in
     r.1 = Raise (KeyError "name")
     ∧ r.2.2 = (parse_user_data
                  (PList [PDict [("id", PStr "U2"); ("name", PStr "bob")]],
                   (populated, silent))).2.2).
Proof.
  split.
  - apply (parse_stops_at_missing_field [PDict [("id", PStr "C2")]]
             [PDict [("id", PStr "C3")]] [("name", PStr "nameless")] populated silent);
      [| reflexivity].
    constructor; [| constructor]. exists [("id", PStr "C2")], (PStr "C2").
    split; reflexivity.
  - apply (parse_stops_at_missing_field
             [PDict [("id", PStr "U2"); ("name", PStr "bob")]] []
             [("id", PStr "U3")] populated silent); [| reflexivity].
    constructor; [| constructor].
    exists [("id", PStr "U2"); ("name", PStr "bob")], (PStr "U2"), (PStr "bob"), (KStr "U2").
    repeat split; reflexivity.
Defined.

(** ** Further properties: receiving *)

Lemma rstrip_newline (s : string) : rstrip (s +:+ newline) = rstrip s.
Proof.
  induction s as [| c s IH]; [reflexivity |].
  change (String c s +:+ newline) with (String c (s +:+ newline)).
  simpl. by rewrite IH.
Qed.



(** One turn of the loop, by what [recv] answers. *)
Lemma read_turn_frame (data frame : string) (readop : option string) (s : Server)
    (w : World) (ws : nat) (rest : list (string + exn)) :
  websocket s = Some ws → ws_recvs w = inl frame :: rest →
  read_turn data (readop, (s, w))
  = match readop with
    | None =>
        (Ret (Some (data +:+ (frame +:+ newline))),
         (Some (rstrip (data +:+ (frame +:+ newline))),
          (s, set_ws_recvs rest (log (WsRecv ws) w))))
    | Some _ =>
        (Raise InvalidStateError, (readop, (s, set_ws_recvs rest (log (WsRecv ws) w))))
    end.
Proof.
  intros Hws Hrecv. unfold read_turn, lift, websocket_recv.
  cbn -[rstrip String.append newline]. rewrite Hws.
  cbn -[rstrip String.append newline]. rewrite Hrecv.
  cbn -[rstrip String.append newline]. by destruct readop.
Qed.

Lemma read_turn_raises (data : string) (readop : option string) (s : Server)
    (w : World) (ws : nat) (e : exn) (rest : list (string + exn)) :
  websocket s = Some ws → ws_recvs w = inr e :: rest →
  read_turn data (readop, (s, w))
  = (if no_data e then Ret None else Raise e,
     (readop, (s, set_ws_recvs rest (log (WsRecv ws) w)))).
Proof.
  intros Hws Hrecv. unfold read_turn, lift, websocket_recv. cbn -[bool_decide].
  rewrite Hws. cbn -[bool_decide]. rewrite Hrecv. cbn -[bool_decide].
  destruct e as [| | | | | | | errno |]; try reflexivity.
  cbn -[bool_decide]. by destruct (bool_decide (errno = Some 2)).
Qed.

Lemma read_turn_waits (data : string) (readop : option string) (s : Server)
    (w : World) (ws : nat) :
  websocket s = Some ws → ws_recvs w = [] →
  read_turn data (readop, (s, w)) = (Hang, (readop, (s, log (WsRecv ws) w))).
Proof.
  intros Hws Hrecv. unfold read_turn, lift, websocket_recv. simpl.
  rewrite Hws. simpl. by rewrite Hrecv.
Qed.

Lemma read_loop_step (n : nat) (data : string) (st : option string * (Server * World)) :
  read_loop (S n) data st
  = match read_turn data st with
    | (Ret (Some data'), st') => read_loop n data' st'
    | (Ret None, st') => (Ret (), st')
    | (Raise e, st') => (Raise e, st')
    | (Hang, st') => (Hang, st')
    end.
Proof.
  change (read_loop (S n) data st)
    with ((r ← read_turn data;
           match r with
           | Some data' => read_loop n data'
           | None => mret ()
           end) st).
  unfold mbind, St_bind, st_bind.
  by destruct (read_turn data st) as [[[data' |] | e |] st'].
Qed.

(** How a non-blocking read on an open connection ends, by what [recv]
    answers: the loop goes round until [recv] raises or waits, and
    [readop] takes a result once only. *)
Lemma nonblocking_read_table (s : Server) (w : World) (ws : nat) :
  websocket s = Some ws →
  (websocket_safe_read false (s, w)).1
  = match ws_recvs w with
    | [] => Hang
    | inr e :: _ => if no_data e then Raise InvalidStateError else Raise e
    | inl _ :: [] => Hang
    | inl frame :: inr e :: _ => if no_data e then Ret (rstrip frame) else Raise e
    | inl _ :: inl _ :: _ => Raise InvalidStateError
    end.
Proof.
  intros Hws. unfold websocket_safe_read, _websocket_safe_read.
  unfold mbind at 1, St_bind, st_bind at 1. cbn [negb fst snd].
  destruct (ws_recvs w) as [| [a | e] recvs] eqn:Hrecv.
  - rewrite read_loop_step, (read_turn_waits _ _ s w ws Hws Hrecv). done.
  - rewrite read_loop_step, (read_turn_frame _ a _ s w ws recvs Hws Hrecv).
    destruct recvs as [| [b | e'] rest].
    + cbn [length]. rewrite read_loop_step.
      by rewrite (read_turn_waits _ _ s (set_ws_recvs [] (log (WsRecv ws) w)) ws Hws eq_refl).
    + cbn [length]. rewrite read_loop_step.
      by rewrite (read_turn_frame _ b _ s (set_ws_recvs (inl b :: rest) (log (WsRecv ws) w))
                    ws rest Hws eq_refl).
    + cbn [length]. rewrite read_loop_step.
      rewrite (read_turn_raises _ _ s (set_ws_recvs (inr e' :: rest) (log (WsRecv ws) w))
                 ws e' rest Hws eq_refl).
      destruct (no_data e'); [| done]. unfold result. cbn [fst snd].
      change (EmptyString +:+ (a +:+ newline)) with (a +:+ newline).
      by rewrite rstrip_newline.
  - rewrite read_loop_step, (read_turn_raises _ _ s w ws e recvs Hws Hrecv).
    by destruct (no_data e).
Qed.


(** X17: a non-blocking read on a connection with two frames ready takes
    both and raises [InvalidStateError], the second [set_result] finding
    [readop] done: neither frame reaches the caller. *)
Theorem nonblocking_read_two_frames (s : Server) (w : World) (ws : nat)
    (a b : string) (rest : list (string + exn)) :
  websocket s = Some ws →
  ws_recvs w = inl a :: inl b :: rest →
  let r := websocket_safe_read false (s, w) in
  r.1 = Raise InvalidStateError ∧ ws_recvs r.2.2 = rest ∧ r.2.1 = s.
Proof.
  intros Hws Hrecv. destruct w as [api opens sends recvs dumps_of parse_of opened events].
  destruct s as [tok name dom snap sock usrs chans flag url prox].
  simpl in Hws, Hrecv. subst sock recvs. by cbn -[rstrip String.append newline].
Qed.

Lemma nonblocking_read_two_frames_witness :
  let r := websocket_safe_read false
             (listening, set_ws_recvs [inl "one"; inl "two"; inl "three"] silent) in
  r.1 = Raise InvalidStateError ∧ ws_recvs r.2.2 = [inl "three"] ∧ r.2.1 = listening.
Proof.
  apply (nonblocking_read_two_frames listening
           (set_ws_recvs [inl "one"; inl "two"; inl "three"] silent) 0%nat
           "one" "two" [inl "three"]); reflexivity.
Defined.


(** X18: an exception of [recv] reaches the caller of a blocking read as it
    is, the [SSLError] with [errno] 2 included, which only the non-blocking
    read takes for "no data"; it reaches the caller of a non-blocking read
    when it is the first answer and is not that [SSLError]. *)
Theorem read_exception_propagates (s : Server) (w : World) (ws : nat) (e : exn)
    (rest : list (string + exn)) :
  websocket s = Some ws →
  ws_recvs w = inr e :: rest →
  (websocket_safe_read true (s, w)).1 = Raise e
  ∧ (no_data e = false → (websocket_safe_read false (s, w)).1 = Raise e).
Proof.
  intros Hws Hrecv. split.
  - unfold websocket_safe_read, _websocket_safe_read, mbind, St_bind, st_bind, lift,
      websocket_recv. simpl. rewrite Hws. simpl. by rewrite Hrecv.
  - intros He. by rewrite (nonblocking_read_table s w ws Hws), Hrecv, He.
Qed.

Lemma read_exception_propagates_witness :
  (websocket_safe_read true (listening, no_data_yet)).1 = Raise (SSLError (Some 2))
  ∧ (no_data (SSLError (Some 2)) = false →
     (websocket_safe_read false (listening, no_data_yet)).1 = Raise (SSLError (Some 2))).
Proof.
  apply (read_exception_propagates listening no_data_yet 0%nat (SSLError (Some 2)) []);
    reflexivity.
Defined.

(** X19: on a server that holds no websocket, a read in either mode raises
    [AttributeError] at once: nothing is asked of the world and the object
    is as before. *)
Theorem read_without_websocket (blocking : bool) (s : Server) (w : World) :
  websocket s = None →
  websocket_safe_read blocking (s, w) = (Raise AttributeError, (s, w)).
Proof.
  intros Hws. unfold websocket_safe_read, _websocket_safe_read.
  destruct blocking; cbn [negb].
  - unfold mbind, St_bind, st_bind, lift, websocket_recv. simpl. by rewrite Hws.
  - unfold mbind at 1, St_bind, st_bind at 1. cbn [fst snd].
    rewrite read_loop_step. unfold read_turn, lift, websocket_recv. simpl.
    by rewrite Hws.
Qed.

Lemma read_without_websocket_witness :
  websocket_safe_read false (new "xoxb-1" None, silent)
  = (Raise AttributeError, (new "xoxb-1" None, silent)).
Proof.
  apply (read_without_websocket false (new "xoxb-1" None) silent). reflexivity.
Defined.

(** What every answer of [recv] keeps, a read keeps. *)
Section read_keeps.
Context (I : relation (Server * World)) `{!PreOrder I}.
Hypothesis Hrecv : keeps I websocket_recv.

Lemma keeps_set_result (v : string) : keeps (beside I) (set_result v).
Proof. intros [readop σ]. unfold set_result, beside. by destruct readop. Qed.

Lemma keeps_result : keeps (beside I) result.
Proof. intros [readop σ]. unfold result, beside. by destruct readop. Qed.

Lemma keeps_read_turn (data : string) : keeps (beside I) (read_turn data).
Proof.
  intros st. unfold read_turn.
  pose proof (keeps_lift I websocket_recv Hrecv (X:=option string) st) as Hl.
  destruct (lift websocket_recv st) as [[frame | e |] st']; [| | done].
  - etrans; [exact Hl |].
    apply (keeps_bind (beside I)); [apply keeps_set_result |].
    intros _. apply keeps_ret. apply _.
  - destruct e; try done. by case_bool_decide.
Qed.

Lemma keeps_read_loop (turns : nat) (data : string) :
  keeps (beside I) (read_loop turns data).
Proof.
  revert data. induction turns as [| n IH]; intros data; [by intros st |].
  change (read_loop (S n) data)
    with (r ← read_turn data;
          match r with
          | Some data' => read_loop n data'
          | None => mret ()
          end).
  apply keeps_bind; [apply _ | apply keeps_read_turn |].
  intros [data' |]; [apply IH | apply keeps_ret; apply _].
Qed.

Lemma keeps_websocket_safe_read (blocking : bool) : keeps I (websocket_safe_read blocking).
Proof.
  intros σ. unfold websocket_safe_read.
  assert (H : keeps (beside I) (_websocket_safe_read blocking;; result)).
  { apply keeps_bind; [apply _ | | intros _; apply keeps_result].
    unfold _websocket_safe_read. destruct blocking; cbn [negb].
    - apply keeps_bind; [apply _ | by apply keeps_lift |].
      intros rawdata. apply keeps_set_result.
    - intros st. apply keeps_read_loop. }
  specialize (H (None, σ)). unfold beside in H.
  by destruct ((_websocket_safe_read blocking;; result) (None, σ)) as [r [readop σ']].
Qed.
End read_keeps.

(** ** Further properties: what goes over the wire *)

Global Instance same_world_preorder : PreOrder same_world.
Proof. split; [by intros σ |]. intros a b c; unfold same_world; congruence. Qed.

Global Instance adds_only_preorder (p : Event → bool) : PreOrder (adds_only p).
Proof.
  split.
  - intros σ. exists []. by rewrite app_nil_r.
  - intros a b c (m1 & H1 & P1) (m2 & H2 & P2). exists (m1 ++ m2)%list.
    rewrite H2, H1, app_assoc, forallb_app, P1, P2. done.
Qed.

Lemma same_world_adds_only (p : Event → bool) σ σ' : same_world σ σ' → adds_only p σ σ'.
Proof. intros H. exists []. unfold same_world in H. by rewrite H, app_nil_r. Qed.

Lemma same_link_world σ σ' : same_link σ σ' → same_world σ σ'.
Proof. by intros (_ & _ & _ & _ & _ & H). Qed.

Lemma assign_world (f : Server → Server) : keeps same_world (assign f).
Proof. by intros [s w]. Qed.

Lemma reply_json_world (reply : Reply) : keeps same_world (reply_json reply).
Proof. unfold reply_json. by destruct (json reply); intros σ. Qed.

Lemma dumps_world (data : pyval) : keeps same_world (dumps data).
Proof. intros [s w]. unfold dumps, same_world. simpl. by destruct (json_dumps w data). Qed.

Lemma proxy_settings_world : keeps same_world proxy_settings.
Proof.
  intros [s w]. unfold same_world. rewrite proxy_settings_run.
  destruct (proxies s ≫= (.!! "http")) as [url |]; [| done].
  by destruct (parse_url w url).
Qed.

Lemma wsclient_connect_adds (url : pyval) (headers : dict) :
  keeps (adds_only is_ws_connect) (wsclient_connect url headers).
Proof.
  intros [s w]. exists [WsConnect url headers]. unfold wsclient_connect. simpl.
  by destruct (ws_connects w) as [| [[] | msg] script'].
Qed.

Lemma websocket_recv_adds : keeps (adds_only is_ws_recv) websocket_recv.
Proof.
  intros [s w]. unfold websocket_recv. simpl.
  destruct (websocket s) as [ws |]; [| by apply same_world_adds_only].
  exists [WsRecv ws]. simpl. by rewrite answer_trace.
Qed.

Lemma websocket_send_adds (data : string) :
  keeps (adds_only is_ws_send) (websocket_send data).
Proof.
  intros [s w]. unfold websocket_send. simpl.
  destruct (websocket s) as [ws |]; [| by apply same_world_adds_only].
  exists [WsSend ws data]. simpl. by rewrite answer_trace.
Qed.

Lemma _connect_slack_websocket_adds (ws_url : pyval) :
  keeps (adds_only is_ws_connect) (_connect_slack_websocket ws_url).
Proof.
  unfold _connect_slack_websocket.
  keeps_with ltac:(first
    [apply (keeps_weaken same_world _ _ (same_world_adds_only _)), proxy_settings_world]).
  destruct a as [[? ?] ?].
  keeps_with ltac:(first [apply wsclient_connect_adds]).
  case_match; [| keeps_steps].
  apply (keeps_weaken same_world _ _ (same_world_adds_only _)), assign_world.
Qed.

(** What [rtm_connect] adds to the trace: its request, then nothing but
    what it asks of [wsclient.connect]. *)
Lemma rtm_connect_events (reconnect : bool) (timeout : pyval) (use_rtm_start : bool)
    (kwargs : dict) (s : Server) (w : World) :
  ∃ more,
    trace (rtm_connect reconnect timeout use_rtm_start kwargs (s, w)).2.2
    = (trace w
       ++ ApiCall (token s) (if use_rtm_start then "rtm.start" else "rtm.connect")
            (PDict kwargs) timeout :: more)%list
    ∧ forallb is_ws_connect more = true.
Proof.
  unfold rtm_connect.
  unfold mbind at 1 2, St_bind, st_bind at 1 2, self, gets, api_requester_do. simpl.
  destruct (api_replies w) as [| [reply | e] script]; simpl; try by exists [].
  match goal with
  | |- ∃ more, trace (?k ?σ1).2.2 = _ ∧ _ =>
      assert (Hk : keeps (adds_only is_ws_connect) k);
        [| destruct (Hk σ1) as (more & Hmore & Hall)]
  end.
  - case_match; [keeps_steps |].
    keeps_with ltac:(first
      [ apply (keeps_weaken same_world _ _ (same_world_adds_only _)), reply_json_world
      | apply (keeps_weaken same_world _ _ (same_world_adds_only _)), assign_world
      | apply _connect_slack_websocket_adds ]).
    case_match; [| keeps_steps].
    keeps_with ltac:(first
      [ apply (keeps_weaken same_world _ _ (same_world_adds_only _)), assign_world
      | apply _connect_slack_websocket_adds ]).
    case_match; [| keeps_steps].
    apply (keeps_weaken same_link _ _
             (λ a b H, same_world_adds_only _ a b (same_link_world a b H))),
      parse_slack_login_data_link.
  - exists more. split; [| done]. rewrite Hmore. simpl. by rewrite <- app_assoc.
Qed.

Lemma filter_other_kind (p q : Event → bool) (l : list Event) :
  (∀ e, p e = true → q e = false) → forallb p l = true → List.filter q l = [].
Proof.
  intros Hpq. induction l as [| e l IH]; simpl; [done |].
  intros [He Hl]%andb_true_iff. by rewrite (Hpq e He), IH.
Qed.

(** X20: reading is reading only: in either mode and however it ends,
    [websocket_safe_read] leaves the object as it is, and all it asks of
    the world is [recv] on the websocket: no request to the API, no
    reconnect, nothing sent. *)
Theorem read_only (blocking : bool) (σ : Server * World) :
  let r := websocket_safe_read blocking σ in
  r.2.1 = σ.1
  ∧ ∃ more, trace r.2.2 = (trace σ.2 ++ more)%list ∧ forallb is_ws_recv more = true.
Proof.
  split.
  - apply (keeps_websocket_safe_read same_server websocket_recv_server).
  - apply (keeps_websocket_safe_read (adds_only is_ws_recv) websocket_recv_adds).
Qed.

(** X21: [send_to_websocket] hands the websocket one text at most: when the
    send fails, the reconnect that follows asks for the handshake and the
    websocket and sends nothing, so a frame that failed to go is not sent
    again. *)
Theorem send_not_retried (data : pyval) (σ : Server * World) :
  (ws_send_calls (send_to_websocket data σ).2.2 ≤ S (ws_send_calls σ.2))%nat.
Proof.
  assert (Hattempt : (ws_send_calls (send_attempt data σ).2.2 ≤ S (ws_send_calls σ.2))%nat).
  { destruct σ as [s w]. unfold send_attempt, mbind, St_bind, st_bind, dumps. simpl.
    destruct (json_dumps w data) as [txt | e]; simpl; [| lia].
    unfold websocket_send. simpl. destruct (websocket s) as [ws |]; simpl; [| lia].
    unfold ws_send_calls. rewrite answer_trace by done. simpl.
    rewrite List.filter_app, length_app. simpl. lia. }
  unfold send_to_websocket, try_except.
  destruct (send_attempt data σ) as [[[] | e |] [s1 w1]]; try exact Hattempt.
  destruct (rtm_connect_events true PNone true [] s1 w1) as (more & Hmore & Hall).
  unfold ws_send_calls in *. rewrite Hmore, List.filter_app. cbn [List.filter is_ws_send].
  rewrite (filter_other_kind is_ws_connect is_ws_send more); [| by intros [] | done].
  rewrite app_nil_r. exact Hattempt.
Qed.

(** X22: a send that cannot be attempted is a reconnect: on a server that
    holds no websocket, and for data that [json.dumps] rejects, the
    exception is swallowed, nothing is handed to a websocket, and
    [send_to_websocket] is [rtm_connect] with [reconnect=True] in the same
    state. *)
Theorem send_unattempted (data : pyval) (s : Server) (w : World) :
  (websocket s = None ∨ ∃ e, json_dumps w data = inr e) →
  send_to_websocket data (s, w) = rtm_connect true PNone true [] (s, w)
  ∧ send_attempt data (s, w)
    = (Raise (match json_dumps w data with inr e => e | inl _ => AttributeError end),
       (s, w)).
Proof.
  intros Hcause.
  assert (Hattempt : send_attempt data (s, w)
            = (Raise (match json_dumps w data with inr e => e | inl _ => AttributeError end),
               (s, w))).
  { unfold send_attempt, mbind, St_bind, st_bind, dumps, websocket_send. simpl.
    destruct (json_dumps w data) as [txt | e]; [| done]. simpl.
    destruct Hcause as [-> | [e He]]; done. }
  split; [| exact Hattempt].
  unfold send_to_websocket, try_except. by rewrite Hattempt.
Qed.

Lemma send_unattempted_witness :
  send_to_websocket (PDict [("type", PStr "ping")]) (new "xoxb-1" None, welcoming)
  = rtm_connect true PNone true [] (new "xoxb-1" None, welcoming)
  ∧ send_attempt (PDict [("type", PStr "ping")]) (new "xoxb-1" None, welcoming)
    = (Raise AttributeError, (new "xoxb-1" None, welcoming)).
Proof.
  apply (send_unattempted (PDict [("type", PStr "ping")]) (new "xoxb-1" None) welcoming).
  left. reflexivity.
Defined.

(** X23: a send that does not raise is all that [send_to_websocket] does:
    no request goes to the API, no websocket is asked for, and the object
    is as before. *)
Theorem send_without_failure (data : pyval) (σ : Server * World) :
  (∀ e, (send_attempt data σ).1 ≠ Raise e) →
  let r := send_to_websocket data σ in
  r = send_attempt data σ ∧ r.2.1 = σ.1 ∧ api_calls r.2.2 = api_calls σ.2
  ∧ ws_connect_calls r.2.2 = ws_connect_calls σ.2.
Proof.
  intros Hok r.
  assert (Hr : r = send_attempt data σ).
  { subst r. unfold send_to_websocket, try_except.
    destruct (send_attempt data σ) as [[[] | e |] σ1] eqn:Hattempt; try done.
    by destruct (Hok e). }
  split; [exact Hr |]. rewrite Hr.
  split; [apply send_attempt_server |]. split; [apply send_attempt_api_calls |].
  destruct σ as [s w]. unfold send_attempt, mbind, St_bind, st_bind, dumps. simpl.
  destruct (json_dumps w data) as [txt | e]; [| done]. simpl.
  unfold websocket_send. simpl. destruct (websocket s) as [ws |]; [| done].
  unfold ws_connect_calls. rewrite answer_trace by done. simpl.
  rewrite List.filter_app, length_app. simpl. lia.
Qed.

Lemma send_without_failure_witness :
  let σ := (listening, set_ws_sends [inl ()] silent) in
  let r := send_to_websocket (PDict [("type", PStr "ping")]) σ in
  r = send_attempt (PDict [("type", PStr "ping")]) σ ∧ r.2.1 = σ.1
  ∧ api_calls r.2.2 = api_calls σ.2
  ∧ ws_connect_calls r.2.2 = ws_connect_calls σ.2.
Proof.
  apply (send_without_failure (PDict [("type", PStr "ping")])
           (listening, set_ws_sends [inl ()] silent)).
  intros e. discriminate.
Defined.

(** X24: the URL of the HTTP proxy is parsed before the [try]: when
    [parse_url] raises, its exception leaves [_connect_slack_websocket] as
    it is, not as a [SlackConnectionError], and no connection is asked
    for. *)
Theorem proxy_url_rejected (ws_url : pyval) (s : Server) (w : World) (url : string)
    (e : exn) :
  proxies s ≫= (.!! "http") = Some url →
  parse_url w url = inr e →
  _connect_slack_websocket ws_url (s, w) = (Raise e, (s, w)).
Proof.
  intros Hproxy Hparse. unfold _connect_slack_websocket.
  unfold mbind at 1, St_bind, st_bind at 1. rewrite proxy_settings_run.
  by rewrite Hproxy, Hparse.
Qed.

Lemma proxy_url_rejected_witness :
  _connect_slack_websocket (PStr "wss://example.test/ws") (proxied, welcoming)
  = (Raise ValueError, (proxied, welcoming)).
Proof.
  apply (proxy_url_rejected (PStr "wss://example.test/ws") proxied welcoming
           "http://user:pw@proxy.test:3128" ValueError); reflexivity.
Defined.

(** X25: what [wsclient.connect] is asked, once, however the opening ends:
    the given URL, with the three proxy headers [None] when [proxies] has
    no ['http'] entry, and with the host, the port and the credentials
    split at [':'] of the parsed proxy URL when it has one. *)
Theorem connect_request (ws_url : pyval) (s : Server) (w : World) :
  (proxies s ≫= (.!! "http") = None →
   trace (_connect_slack_websocket ws_url (s, w)).2.2
   = (trace w
      ++ [WsConnect ws_url
            [("http_proxy_host", PNone); ("http_proxy_port", PNone);
             ("http_proxy_auth", PNone)]])%list)
  ∧ (∀ url parts,
       proxies s ≫= (.!! "http") = Some url → parse_url w url = inl parts →
       trace (_connect_slack_websocket ws_url (s, w)).2.2
       = (trace w
          ++ [WsConnect ws_url
                [("http_proxy_host", opt_str (host parts));
                 ("http_proxy_port", opt_int (port parts));
                 ("http_proxy_auth", split_auth (auth parts))]])%list).
Proof.
  assert (Hrun : ∀ headers,
    trace ((r ← wsclient_connect ws_url headers;
            match r with
            | inl ws => assign (set_websocket (Some ws))
            | inr msg => raise (SlackConnectionError (Some msg))
            end) (s, w)).2.2
    = (trace w ++ [WsConnect ws_url headers])%list).
  { intros headers. unfold mbind, St_bind, st_bind, wsclient_connect. simpl.
    by destruct (ws_connects w) as [| [[] | msg] script']. }
  split.
  - intros Hnone. unfold _connect_slack_websocket.
    unfold mbind at 1, St_bind, st_bind at 1. rewrite proxy_settings_run, Hnone.
    apply Hrun.
  - intros url parts Hsome Hparse. unfold _connect_slack_websocket.
    unfold mbind at 1, St_bind, st_bind at 1. rewrite proxy_settings_run, Hsome, Hparse.
    apply Hrun.
Qed.

Lemma connect_request_witness :
  trace (_connect_slack_websocket (PStr "wss://example.test/ws")
           (new "xoxb-1" None, welcoming)).2.2
  = [WsConnect (PStr "wss://example.test/ws")
       [("http_proxy_host", PNone); ("http_proxy_port", PNone);
        ("http_proxy_auth", PNone)]]
  ∧ trace (_connect_slack_websocket (PStr "wss://example.test/ws")
             (proxied, parsing)).2.2
    = [WsConnect (PStr "wss://example.test/ws")
         [("http_proxy_host", PStr "proxy.test"); ("http_proxy_port", PInt 3128);
          ("http_proxy_auth", PList [PStr "user"; PStr "pw"])]].
Proof.
  split.
  - apply (proj1 (connect_request (PStr "wss://example.test/ws")
                    (new "xoxb-1" None) welcoming)). reflexivity.
  - apply (proj2 (connect_request (PStr "wss://example.test/ws") proxied parsing)
             "http://user:pw@proxy.test:3128" proxy_parts); reflexivity.
Defined.

(** ** Further properties: calls to the Web API *)

(** X26: [api_call] hands back the text of whatever reply comes, without
    looking at its status or its body: an answer that [rtm_connect] would
    refuse is returned like any other.  It makes the one request, with the
    token, the method, the keyword arguments as [post_data] and the
    timeout, and leaves the object as it is. *)
Theorem api_call_returns_text (method : string) (timeout : pyval) (kwargs : dict)
    (s : Server) (w : World) (reply : Reply) (rest : list (Reply + exn)) :
  api_replies w = inl reply :: rest →
  api_call method timeout kwargs (s, w)
  = (Ret (text reply),
     (s, set_api_replies rest (log (ApiCall (token s) method (PDict kwargs) timeout) w))).
Proof.
  intros Hreply. unfold api_call, mbind, St_bind, st_bind, self, gets, api_requester_do.
  simpl. by rewrite Hreply.
Qed.

Lemma api_call_returns_text_witness :
  let reply := {| status_code := 500; json := None; text := "Internal Server Error" |} in
  api_call "channels.setPurpose" PNone [("channel", PStr "C1")]
    (populated, set_api_replies [inl reply] silent)
  = (Ret "Internal Server Error",
     (populated,
      set_api_replies []
        (log (ApiCall "xoxb-1" "channels.setPurpose" (PDict [("channel", PStr "C1")]) PNone)
           (set_api_replies [inl reply] silent)))).
Proof.
  apply (api_call_returns_text "channels.setPurpose" PNone [("channel", PStr "C1")]
           populated _
           {| status_code := 500; json := None; text := "Internal Server Error" |} []).
  reflexivity.
Defined.

(** X27: [join_channel] asks for [channels.join?name=] followed by the name
    as it is given, without [post_data], and hands back the text of the
    reply whatever its status; the directory is not touched, so a channel
    joined this way is not attached. *)
Theorem join_channel_request (name : string) (timeout : pyval) (s : Server) (w : World)
    (reply : Reply) (rest : list (Reply + exn)) :
  api_replies w = inl reply :: rest →
  join_channel name timeout (s, w)
  = (Ret (text reply),
     (s, set_api_replies rest
           (log (ApiCall (token s) ("channels.join?name=" +:+ name) PNone timeout) w))).
Proof.
  intros Hreply. unfold join_channel, mbind, St_bind, st_bind, self, gets,
    api_requester_do. simpl. by rewrite Hreply.
Qed.

Lemma join_channel_request_witness :
  let reply := {| status_code := 200; json := None; text := "joined" |} in
  join_channel "random" PNone (populated, set_api_replies [inl reply] silent)
  = (Ret "joined",
     (populated,
      set_api_replies []
        (log (ApiCall "xoxb-1" "channels.join?name=random" PNone PNone)
           (set_api_replies [inl reply] silent)))).
Proof.
  apply (join_channel_request "random" PNone populated _
           {| status_code := 200; json := None; text := "joined" |} []).
  reflexivity.
Defined.

(** ** Further properties: the flag *)

Lemma api_call_server (method : string) (timeout : pyval) (kwargs : dict) :
  keeps same_server (api_call method timeout kwargs).
Proof.
  unfold api_call. keeps_with ltac:(first [apply api_requester_do_server]).
Qed.

Lemma join_channel_server (name : string) (timeout : pyval) :
  keeps same_server (join_channel name timeout).
Proof.
  unfold join_channel. keeps_with ltac:(first [apply api_requester_do_server]).
Qed.

Lemma send_to_websocket_flag (data : pyval) : keeps same_flag (send_to_websocket data).
Proof.
  unfold send_to_websocket. apply keeps_try_except; [apply _ | |].
  - apply (keeps_weaken same_server _ _ same_server_flag), send_attempt_server.
  - apply rtm_connect_flag.
Qed.

(** X28: no method sets [connected]: after [rtm_connect], a send, a
    message, a ping, a read, a call to the API, a join or an attach,
    however the call ends, the flag is what it was before; a server built
    with it false never has it true. *)
Theorem connected_never_assigned (σ : Server * World) :
  (∀ reconnect timeout use_rtm_start kwargs,
     connected (rtm_connect reconnect timeout use_rtm_start kwargs σ).2.1 = connected σ.1)
  ∧ (∀ data, connected (send_to_websocket data σ).2.1 = connected σ.1)
  ∧ (∀ channel message thread reply_broadcast,
       connected (rtm_send_message channel message thread reply_broadcast σ).2.1
       = connected σ.1)
  ∧ connected (ping σ).2.1 = connected σ.1
  ∧ (∀ blocking, connected (websocket_safe_read blocking σ).2.1 = connected σ.1)
  ∧ (∀ method timeout kwargs,
       connected (api_call method timeout kwargs σ).2.1 = connected σ.1)
  ∧ (∀ name timeout, connected (join_channel name timeout σ).2.1 = connected σ.1)
  ∧ (∀ name user_id real_name tz,
       connected (attach_user name user_id real_name tz σ).2.1 = connected σ.1)
  ∧ (∀ name channel_id members,
       connected (attach_channel name channel_id members σ).2.1 = connected σ.1).
Proof.
  repeat split.
  - intros. apply rtm_connect_flag.
  - intros. apply send_to_websocket_flag.
  - intros. unfold rtm_send_message. apply send_to_websocket_flag.
  - apply send_to_websocket_flag.
  - intros. apply same_server_flag,
      (keeps_websocket_safe_read same_server websocket_recv_server).
  - intros. apply same_server_flag, api_call_server.
  - intros. apply same_server_flag, join_channel_server.
  - intros. by destruct (attach_user_link name user_id real_name tz σ) as (_ & _ & ? & _).
  - intros. by destruct (attach_channel_link name channel_id members σ) as (_ & _ & ? & _).
Qed.

(** X29: sending never touches the directory: after [send_to_websocket],
    [rtm_send_message] or [ping], whether the send went through or failed
    and led to a reconnect, and however that reconnect ended, [users] and
    [channels] are as before. *)
Theorem send_keeps_directory (σ : Server * World) :
  (∀ data,
     users (send_to_websocket data σ).2.1 = users σ.1
     ∧ channels (send_to_websocket data σ).2.1 = channels σ.1)
  ∧ (∀ channel message thread reply_broadcast,
       users (rtm_send_message channel message thread reply_broadcast σ).2.1 = users σ.1
       ∧ channels (rtm_send_message channel message thread reply_broadcast σ).2.1
         = channels σ.1)
  ∧ users (ping σ).2.1 = users σ.1 ∧ channels (ping σ).2.1 = channels σ.1.
Proof.
  assert (H : ∀ data, keeps same_directory (send_to_websocket data)).
  { intros data. unfold send_to_websocket. apply keeps_try_except; [apply _ | |].
    - apply (keeps_weaken same_server _ _ same_server_directory), send_attempt_server.
    - apply rtm_connect_directory. }
  split; [intros data; apply H |].
  split; [intros; unfold rtm_send_message; apply H |].
  apply (H (PDict [("type", PStr "ping")]) σ).
Qed.
